(** * auto-data-cy-bot-static: element classifier and deterministic namer

    A shallow embedding of [src/utils/nameGenerator.js] ([slugify],
    [generateTag]) and of the JSX visitor of [src/static/scanner.js]
    ([extractSuggestionsFromAST], and the collection loop of [run]).

    JavaScript strings are modelled as lists of code units in the Latin-1
    range (one [ascii] per code unit); the string primitives below are the
    ECMAScript ones restricted to that range. *)

From Stdlib Require Import String Ascii List Bool Arith NArith Lia.
From Stdlib Require Import DecimalString DecimalNat.
Import ListNotations.

Set Implicit Arguments.
Set Warnings "-register-all".

(* ================================================================== *)
(** * JavaScript string primitives *)
(* ================================================================== *)

Module JS.

Definition jsstring := list ascii.

(** A string literal of the source. *)
Definition js (s : string) : jsstring := list_ascii_of_string s.

Definition code (c : ascii) : N := N_of_ascii c.

Definition inRange (lo hi : N) (c : ascii) : bool :=
  ((lo <=? code c) && (code c <=? hi))%N.

Definition isUpperAZ (c : ascii) : bool := inRange 65 90 c.
Definition isLowerAZ (c : ascii) : bool := inRange 97 122 c.
Definition isDigit (c : ascii) : bool := inRange 48 57 c.

(** The character class [[a-z0-9]]. *)
Definition isLowerAlnum (c : ascii) : bool := isLowerAZ c || isDigit c.

(** The character class [[a-z0-9]] under the [i] flag. *)
Definition isAlnum (c : ascii) : bool :=
  isLowerAZ c || isUpperAZ c || isDigit c.

(** ECMAScript WhiteSpace and LineTerminator code units below 256:
    TAB, LF, VT, FF, CR, SP and NBSP. *)
Definition isWhiteSpace (c : ascii) : bool :=
  inRange 9 13 c || (code c =? 32)%N || (code c =? 160)%N.

(** [String.prototype.toLowerCase] on one code unit: A-Z, and the Latin-1
    capitals U+00C0..U+00DE except the multiplication sign U+00D7. *)
Definition toLowerCaseChar (c : ascii) : ascii :=
  if isUpperAZ c || (inRange 192 222 c && negb (code c =? 215)%N)
  then ascii_of_N (code c + 32)
  else c.

Definition toLowerCase (s : jsstring) : jsstring := map toLowerCaseChar s.

Fixpoint dropWhile (p : ascii -> bool) (s : jsstring) : jsstring :=
  match s with
  | [] => []
  | c :: r => if p c then dropWhile p r else s
  end.

Definition trimStart (s : jsstring) : jsstring := dropWhile isWhiteSpace s.
Definition trimEnd (s : jsstring) : jsstring := rev (trimStart (rev s)).

(** [String.prototype.trim]. *)
Definition trim (s : jsstring) : jsstring := trimEnd (trimStart s).

(** [s.split(sep)] for a one-character separator: never empty. *)
Fixpoint split (sep : ascii) (s : jsstring) : list jsstring :=
  match s with
  | [] => [[]]
  | c :: r =>
      if Ascii.eqb c sep then [] :: split sep r
      else match split sep r with
           | h :: t => (c :: h) :: t
           | [] => [[c]]
           end
  end.

(** [parts.join(sep)]. *)
Fixpoint join (sep : jsstring) (parts : list jsstring) : jsstring :=
  match parts with
  | [] => []
  | [p] => p
  | p :: rest => p ++ sep ++ join sep rest
  end.

(** [s.slice(0, n)] and [a.slice(0, n)]. *)
Definition slice0 {A : Type} (n : nat) (l : list A) : list A := firstn n l.

(** [s.replace(/[^K]+/g, '-')] for a character class [K] given by [keep]:
    every maximal run of characters outside the class becomes one dash.
    [inRun] tells that the previous character was outside the class. *)
Fixpoint replaceRuns (keep : ascii -> bool) (inRun : bool) (s : jsstring)
  : jsstring :=
  match s with
  | [] => []
  | c :: r =>
      if keep c then c :: replaceRuns keep false r
      else if inRun then replaceRuns keep true r
           else "-"%char :: replaceRuns keep true r
  end.

Definition stripLeadingDash (s : jsstring) : jsstring :=
  match s with
  | "-"%char :: r => r
  | _ => s
  end.

Definition stripTrailingDash (s : jsstring) : jsstring :=
  rev (stripLeadingDash (rev s)).

(** [s.replace(/(^-|-$)/g, '')]: the two alternatives match at most once
    each, the first at offset 0 and the second at the last offset of what
    is left. *)
Definition stripDashes (s : jsstring) : jsstring :=
  stripTrailingDash (stripLeadingDash s).

(** [a === b] on strings. *)
Fixpoint eqb (a b : jsstring) : bool :=
  match a, b with
  | [], [] => true
  | c :: a', d :: b' => Ascii.eqb c d && eqb a' b'
  | _, _ => false
  end.

(** [String(n)] for an array length [n]. *)
Definition stringOfNat (n : nat) : jsstring :=
  list_ascii_of_string (NilEmpty.string_of_uint (Nat.to_uint n)).

(** The values a literal node carries in its [value] property. *)
Inductive value : Type :=
| VString (s : jsstring)
| VNumber (n : N)
| VBoolean (b : bool).

(** ToBoolean. *)
Definition truthy (v : value) : bool :=
  match v with
  | VString s => match s with [] => false | _ => true end
  | VNumber n => negb (n =? 0)%N
  | VBoolean b => b
  end.

(** [v.toString()]; a number is a non-negative integer below 10^21. *)
Definition toString (v : value) : jsstring :=
  match v with
  | VString s => s
  | VNumber n => stringOfNat (N.to_nat n)
  | VBoolean true => js "true"
  | VBoolean false => js "false"
  end.

(** [a || b] on possibly-undefined operands, with [None] for
    [undefined]/[null]. *)
Definition orElse (a b : option value) : option value :=
  match a with
  | Some v => if truthy v then a else b
  | None => b
  end.

(** A word: not empty and free of whitespace. *)
Definition word (w : jsstring) : Prop :=
  w <> [] /\ Forall (fun c => isWhiteSpace c = false) w.

(** What precedes the last segment of a slug: nothing, or a string that
    ends in a dash. *)
Definition dashEnded (p : jsstring) : Prop :=
  p = [] \/ exists q, p = q ++ ["-"%char].

(** The characters a slug is made of: [[a-z0-9]] and the dash. *)
Definition isSlugChar (c : ascii) : bool :=
  isLowerAlnum c || Ascii.eqb c "-"%char.

(** No dash is followed by a dash. *)
Fixpoint singleDashes (s : jsstring) : bool :=
  match s with
  | [] => true
  | c :: r =>
      negb (Ascii.eqb c "-"%char
            && match r with
               | d :: _ => Ascii.eqb d "-"%char
               | [] => false
               end)
      && singleDashes r
  end.

(** Slug characters only, no dash at either end, no two dashes in a row. *)
Definition tidy (s : jsstring) : Prop :=
  Forall (fun c => isSlugChar c = true) s
  /\ singleDashes s = true
  /\ (forall r, s <> "-"%char :: r)
  /\ (forall q, s <> q ++ ["-"%char]).

(** [s.replace(/c/g, ' ')] for one character [c]. *)
Definition blankOut (c : ascii) (s : jsstring) : jsstring :=
  map (fun d => if Ascii.eqb d c then " "%char else d) s.

End JS.

(* ================================================================== *)
(** * src/utils/nameGenerator.js *)
(* ================================================================== *)

Module NameGenerator.
Import JS.

(** [slugify] without its final [slice(0, 60)]. *)
Definition normalize (s : jsstring) : jsstring :=
  stripDashes (replaceRuns isLowerAlnum false (toLowerCase s)).

Definition slugify (s : jsstring) : jsstring :=
  slice0 60 (normalize s).

(** The argument object of [generateTag]; absent properties are [None]. *)
Record info : Type := mkInfo {
  compPath : option jsstring;
  tag : jsstring;
  text : option jsstring;
  aria : option jsstring;
  placeholder : option jsstring;
  alt : option jsstring;
  index : option nat
}.

(** [x || y] on strings, [None] and the empty string being falsy. *)
Definition orStr (a : option jsstring) (b : option jsstring)
  : option jsstring :=
  match a with
  | Some (_ :: _) => a
  | _ => b
  end.

(** Line 14: [info.tag === 'a' ? 'link' : info.tag]. *)
Definition roleOf (tag : jsstring) : jsstring :=
  if eqb tag (js "a") then js "link" else tag.

(** Line 17: [(info.text || info.aria || info.placeholder || info.alt || '').trim()]. *)
Definition hintOf (i : info) : jsstring :=
  trim (match orStr (text i) (orStr (aria i) (orStr (placeholder i) (alt i))) with
        | Some s => s
        | None => []
        end).

(** Line 18: [text.split('\n')[0].trim().split(' ').slice(0,5).join(' ')]. *)
Definition textToken (text : jsstring) : jsstring :=
  join (js " ")
       (slice0 5 (split " "%char (trim (hd [] (split "010"%char text))))).

Definition parts (i : info) : list jsstring :=
  (match compPath i with
   | Some (c :: p) => [toLowerCase (replaceRuns isAlnum false (c :: p))]
   | _ => []
   end)
  ++ [roleOf (tag i)]
  ++ (match hintOf i with
      | [] => []
      | t => [textToken t]
      end)
  ++ (match index i with
      | Some n => [stringOfNat n]
      | None => []
      end).

Definition generateTag (i : info) : jsstring :=
  slugify (join (js "-") (parts i)).

(** The call of the scanner: [generateTag({ tag, text, index })]. *)
Definition tagTextIndex (tag text : jsstring) (index : nat) : info :=
  mkInfo None tag (Some text) None None None (Some index).

End NameGenerator.

(* ================================================================== *)
(** * The syntax tree handed to the visitor *)
(* ================================================================== *)

Module Ast.
Import JS.

(** The nodes that name an element or an attribute. *)
Inductive jsxName : Type :=
| JSXIdentifier (name : jsstring)
| JSXMemberExpression (property : jsstring)
| JSXNamespacedName (namespace name : jsstring).

(** The part of the Babel tree the visitor reads: the JSX nodes and the
    literal nodes, which have a primitive [value]. [Other] stands for every
    other node type, with the child nodes the traversal goes through, in
    order. An absent [openingElement], element name or attribute value is
    [None]; [line] is [loc.start.line]. A numeric literal is a non-negative
    integer below 10^21, which [toString] prints in plain decimal. *)
Inductive node : Type :=
| JSXElement (openingElement : option opening) (children : list node)
| JSXText (value : jsstring)
| JSXExpressionContainer (expression : node)
| StringLiteral (value : jsstring)
| NumericLiteral (value : N)
| BooleanLiteral (value : bool)
| BigIntLiteral (value : jsstring)
| Other (fields : list node)
with opening : Type :=
| JSXOpeningElement (name : option jsxName) (attributes : list attribute)
                    (line : option nat)
with attribute : Type :=
| JSXAttribute (name : jsxName) (value : option node)
| JSXSpreadAttribute (argument : node).

(** [n.value]. *)
Definition propValue (n : node) : option value :=
  match n with
  | JSXText s => Some (VString s)
  | StringLiteral s => Some (VString s)
  | NumericLiteral k => Some (VNumber k)
  | BooleanLiteral b => Some (VBoolean b)
  | BigIntLiteral s => Some (VString s)
  | _ => None
  end.

(** [attr?.name?.name] when it is a string. *)
Definition attrName (a : attribute) : option jsstring :=
  match a with
  | JSXAttribute (JSXIdentifier n) _ => Some n
  | _ => None
  end.

(** [attr?.value?.value]. *)
Definition attrValueValue (a : attribute) : option value :=
  match a with
  | JSXAttribute _ (Some v) => propValue v
  | _ => None
  end.

(** [attr.value?.expression?.value]. *)
Definition attrExpressionValue (a : attribute) : option value :=
  match a with
  | JSXAttribute _ (Some (JSXExpressionContainer e)) => propValue e
  | _ => None
  end.

(** [attr?.name?.name === key]. *)
Definition attrNamed (key : jsstring) (a : attribute) : bool :=
  match attrName a with
  | Some n => eqb n key
  | None => false
  end.

(** [recast.types.visit(ast, { visitJSXElement })] for a method that ends
    every branch in one [this.traverse(path)]: [method] is what the method
    does to the visitor's state before that call. It runs on every
    [JSXElement], parents first; the traversal then goes through the
    opening element (the attribute values) and the children, in order. *)
Section Visit.
Variable State : Type.
Variable method : option opening -> list node -> State -> State.

Fixpoint visit (n : node) (s : State) {struct n} : State :=
  match n with
  | JSXElement o children =>
      let s1 := method o children s in
      let s2 := match o with
                | Some op => visitOpening op s1
                | None => s1
                end in
      (fix visitAll (l : list node) (s : State) : State :=
         match l with
         | [] => s
         | c :: l' => visitAll l' (visit c s)
         end) children s2
  | JSXExpressionContainer e => visit e s
  | Other fields =>
      (fix visitAll (l : list node) (s : State) : State :=
         match l with
         | [] => s
         | c :: l' => visitAll l' (visit c s)
         end) fields s
  | _ => s
  end
with visitOpening (op : opening) (s : State) {struct op} : State :=
  match op with
  | JSXOpeningElement _ attrs _ =>
      (fix visitAttrs (l : list attribute) (s : State) : State :=
         match l with
         | [] => s
         | a :: l' => visitAttrs l' (visitAttribute a s)
         end) attrs s
  end
with visitAttribute (a : attribute) (s : State) {struct a} : State :=
  match a with
  | JSXAttribute _ (Some v) => visit v s
  | JSXAttribute _ None => s
  | JSXSpreadAttribute e => visit e s
  end.

Definition visitAll (l : list node) (s : State) : State :=
  fold_left (fun s c => visit c s) l s.

Definition visitAttrs (l : list attribute) (s : State) : State :=
  fold_left (fun s a => visitAttribute a s) l s.

(** [this.traverse(path)] on a [JSXElement]. *)
Definition traverse (o : option opening) (children : list node) (s : State)
  : State :=
  visitAll children
    (match o with
     | Some (JSXOpeningElement _ attrs _) => visitAttrs attrs s
     | None => s
     end).

End Visit.

(** The [JSXElement] nodes of a tree, in the order the traversal reaches
    them. *)
Fixpoint elements (n : node) {struct n} : list (option opening * list node) :=
  match n with
  | JSXElement o children =>
      (o, children)
      :: (match o with
          | Some op => openingElements op
          | None => []
          end)
      ++ (fix all (l : list node) : list (option opening * list node) :=
            match l with
            | [] => []
            | c :: l' => elements c ++ all l'
            end) children
  | JSXExpressionContainer e => elements e
  | Other fields =>
      (fix all (l : list node) : list (option opening * list node) :=
         match l with
         | [] => []
         | c :: l' => elements c ++ all l'
         end) fields
  | _ => []
  end
with openingElements (op : opening) {struct op}
  : list (option opening * list node) :=
  match op with
  | JSXOpeningElement _ attrs _ =>
      (fix all (l : list attribute) : list (option opening * list node) :=
         match l with
         | [] => []
         | a :: l' => attributeElements a ++ all l'
         end) attrs
  end
with attributeElements (a : attribute) {struct a}
  : list (option opening * list node) :=
  match a with
  | JSXAttribute _ (Some v) => elements v
  | JSXAttribute _ None => []
  | JSXSpreadAttribute e => elements e
  end.

(** Induction on trees, with the induction hypothesis on every node of
    the lists below a node. *)
Section NodeInduction.
Variable P : node -> Prop.
Variable Q : opening -> Prop.
Variable R : attribute -> Prop.

Hypothesis element_bare :
  forall children, Forall P children -> P (JSXElement None children).
Hypothesis element_opened :
  forall op children, Q op -> Forall P children ->
                      P (JSXElement (Some op) children).
Hypothesis text_case : forall v, P (JSXText v).
Hypothesis container_case :
  forall e, P e -> P (JSXExpressionContainer e).
Hypothesis string_case : forall v, P (StringLiteral v).
Hypothesis number_case : forall v, P (NumericLiteral v).
Hypothesis boolean_case : forall v, P (BooleanLiteral v).
Hypothesis bigint_case : forall v, P (BigIntLiteral v).
Hypothesis other_case : forall fields, Forall P fields -> P (Other fields).
Hypothesis opening_case :
  forall nameNode attrs l, Forall R attrs ->
                           Q (JSXOpeningElement nameNode attrs l).
Hypothesis attribute_valued : forall nm v, P v -> R (JSXAttribute nm (Some v)).
Hypothesis attribute_bare : forall nm, R (JSXAttribute nm None).
Hypothesis attribute_spread : forall e, P e -> R (JSXSpreadAttribute e).

Fixpoint node_induction (n : node) {struct n} : P n :=
  match n with
  | JSXElement None children =>
      element_bare
        ((fix all (l : list node) : Forall P l :=
            match l with
            | [] => Forall_nil P
            | c :: l' => Forall_cons c (node_induction c) (all l')
            end) children)
  | JSXElement (Some op) children =>
      element_opened (opening_induction op)
        ((fix all (l : list node) : Forall P l :=
            match l with
            | [] => Forall_nil P
            | c :: l' => Forall_cons c (node_induction c) (all l')
            end) children)
  | JSXText v => text_case v
  | JSXExpressionContainer e => container_case (node_induction e)
  | StringLiteral v => string_case v
  | NumericLiteral v => number_case v
  | BooleanLiteral v => boolean_case v
  | BigIntLiteral v => bigint_case v
  | Other fields =>
      other_case
        ((fix all (l : list node) : Forall P l :=
            match l with
            | [] => Forall_nil P
            | c :: l' => Forall_cons c (node_induction c) (all l')
            end) fields)
  end
with opening_induction (op : opening) {struct op} : Q op :=
  match op with
  | JSXOpeningElement nameNode attrs l =>
      opening_case nameNode l
        ((fix all (l : list attribute) : Forall R l :=
            match l with
            | [] => Forall_nil R
            | a :: l' => Forall_cons a (attribute_induction a) (all l')
            end) attrs)
  end
with attribute_induction (a : attribute) {struct a} : R a :=
  match a with
  | JSXAttribute nm (Some v) => attribute_valued nm (node_induction v)
  | JSXAttribute nm None => attribute_bare nm
  | JSXSpreadAttribute e => attribute_spread (node_induction e)
  end.

End NodeInduction.

End Ast.

(* ================================================================== *)
(** * src/static/scanner.js *)
(* ================================================================== *)

Module Scanner.
Import JS Ast.

Record suggestion : Type := mkSuggestion {
  file : jsstring;
  line : option nat;
  tag : jsstring;
  text : jsstring;
  dataCy : jsstring
}.

(** Lines 77-80: a [JSXIdentifier] whose name matches [/^[A-Z]/]. *)
Definition isComponent (nameNode : option jsxName) : bool :=
  match nameNode with
  | Some (JSXIdentifier (c :: _)) => isUpperAZ c
  | _ => false
  end.

(** Lines 85-87. *)
Definition tagOf (nameNode : option jsxName) : option jsstring :=
  match nameNode with
  | Some (JSXIdentifier n) => Some (toLowerCase n)
  | _ => None
  end.

Definition interactiveTags : list jsstring :=
  [js "button"; js "a"; js "input"; js "select"; js "textarea"].

(** Lines 91-94. *)
Definition hasRoleButton (attrs : list attribute) : bool :=
  existsb (fun attr =>
             attrNamed (js "role") attr
             && match attrValueValue attr with
                | Some (VString s) => eqb s (js "button")
                | _ => false
                end) attrs.

(** Lines 96-98; [includes(null)] is false. *)
Definition isInteractive (tag : option jsstring) (attrs : list attribute)
  : bool :=
  match tag with
  | Some t => existsb (eqb t) interactiveTags
  | None => false
  end || hasRoleButton attrs.

(** Line 106. *)
Definition hasDataCy (attrs : list attribute) : bool :=
  existsb (attrNamed (js "data-cy")) attrs.

(** Lines 113-128: the loop over [path.node.children]. *)
Fixpoint childText (children : list node) : jsstring :=
  match children with
  | [] => []
  | JSXText v :: rest =>
      match trim v with
      | [] => childText rest
      | t => t
      end
  | JSXExpressionContainer (StringLiteral v) :: _ => v
  | _ :: rest => childText rest
  end.

(** The four variables of lines 130-133. *)
Record hints : Type := mkHints {
  aria : option value;
  placeholder : option value;
  alt : option value;
  title : option value
}.

(** Lines 137-138. *)
Definition attrVal (attr : attribute) : option value :=
  orElse (attrValueValue attr) (orElse (attrExpressionValue attr) None).

(** Lines 135-143: the body of the [forEach] callback. *)
Definition hintStep (h : hints) (attr : attribute) : hints :=
  match attr with
  | JSXSpreadAttribute _ => h
  | JSXAttribute _ _ =>
      let val := attrVal attr in
      let h1 := if attrNamed (js "aria-label") attr
                then mkHints val (placeholder h) (alt h) (title h) else h in
      let h2 := if attrNamed (js "placeholder") attr
                then mkHints (aria h1) val (alt h1) (title h1) else h1 in
      let h3 := if attrNamed (js "alt") attr
                then mkHints (aria h2) (placeholder h2) val (title h2) else h2 in
      if attrNamed (js "title") attr
      then mkHints (aria h3) (placeholder h3) (alt h3) val else h3
  end.

Definition attrHints (attrs : list attribute) : hints :=
  fold_left hintStep attrs (mkHints None None None None).

(** Lines 146-154. *)
Definition nameSource (tag : option jsstring) (attrs : list attribute)
  (children : list node) : jsstring :=
  let h := attrHints attrs in
  match orElse (Some (VString (childText children)))
          (orElse (aria h)
             (orElse (placeholder h)
                (orElse (alt h)
                   (orElse (title h)
                      (orElse (option_map VString tag)
                              (Some (VString []))))))) with
  | Some v => toString v
  | None => []
  end.

(** [tag || "el"]. *)
Definition tagOrEl (tag : option jsstring) : jsstring :=
  match tag with
  | Some (c :: t) => c :: t
  | _ => js "el"
  end.

(** Line 162: [opening.loc?.start?.line || null]. *)
Definition locLine (l : option nat) : option nat :=
  match l with
  | Some (S n) => Some (S n)
  | _ => None
  end.

(** Lines 156-170: the record pushed when [suggestions.length] is [index]. *)
Definition candidate (file : jsstring) (tag : option jsstring)
  (attrs : list attribute) (l : option nat) (children : list node)
  (index : nat) : suggestion :=
  let src := nameSource tag attrs children in
  {| file := file;
     line := locLine l;
     tag := tagOrEl tag;
     text := src;
     dataCy := NameGenerator.generateTag
                 (NameGenerator.tagTextIndex (tagOrEl tag) src index) |}.

(** The body of [visitJSXElement] up to the final [this.traverse(path)]:
    the array of suggestions after the node itself has been handled. No
    operation of the [try] block throws on a tree of this type. *)
Definition visitJSXElement (file : jsstring) (o : option opening)
  (children : list node) (suggestions : list suggestion)
  : list suggestion :=
  match o with
  | None => suggestions
  | Some (JSXOpeningElement nameNode attrs l) =>
      if isComponent nameNode then suggestions
      else
        let tag := tagOf nameNode in
        if negb (isInteractive tag attrs) then suggestions
        else if hasDataCy attrs then suggestions
        else suggestions
               ++ [candidate file tag attrs l children (length suggestions)]
  end.

Definition extractSuggestionsFromAST (ast : node) (code file : jsstring)
  : list suggestion :=
  visit (visitJSXElement file) ast [].

(** What [run] finds for a changed file: nothing on disk, a source that
    does not parse, or a source and its tree. *)
Inductive changed : Type :=
| Missing (file : jsstring)
| ParseFailed (file code : jsstring)
| Parsed (file code : jsstring) (ast : node).

(** Lines 191-209 of [run]: the loop that fills [allSuggestions]. *)
Definition collect (relevant : list changed) : list suggestion :=
  fold_left (fun allSuggestions f =>
               match f with
               | Parsed file code ast =>
                   allSuggestions ++ extractSuggestionsFromAST ast code file
               | _ => allSuggestions
               end) relevant [].

(** The two ways of being interactive, as the classification rule states
    them: the lowercased tag is one of the five, or a [role] attribute has
    the value ["button"]. *)
Definition interactiveByTag (nameNode : option jsxName) : Prop :=
  exists n, nameNode = Some (JSXIdentifier n)
            /\ In (toLowerCase n) interactiveTags.

Definition interactiveByRole (attrs : list attribute) : Prop :=
  exists v, In (JSXAttribute (JSXIdentifier (js "role")) (Some v)) attrs
            /\ propValue v = Some (VString (js "button")).

(** The element carries the marker attribute. *)
Definition marked (attrs : list attribute) : Prop :=
  exists v, In (JSXAttribute (JSXIdentifier (js "data-cy")) v) attrs.

(** The element gets past the guards of lines 69, 77 and 100: this is
    where the visitor takes it for interactive. *)
Definition flagged (o : option opening) : bool :=
  match o with
  | None => false
  | Some (JSXOpeningElement nameNode attrs _) =>
      negb (isComponent nameNode) && isInteractive (tagOf nameNode) attrs
  end.

(** The element is pushed: flagged, and without [data-cy]. *)
Definition emitted (o : option opening) : bool :=
  match o with
  | None => false
  | Some (JSXOpeningElement _ attrs _) => flagged o && negb (hasDataCy attrs)
  end.

(** The candidates of a list of elements, the first one numbered [k]. *)
Fixpoint numbered (file : jsstring) (k : nat)
  (es : list (option opening * list node)) : list suggestion :=
  match es with
  | [] => []
  | (Some (JSXOpeningElement nameNode attrs l) as o, children) :: rest =>
      if emitted o
      then candidate file (tagOf nameNode) attrs l children k
           :: numbered file (S k) rest
      else numbered file k rest
  | (None, _) :: rest => numbered file k rest
  end.

(** What one changed file adds to [allSuggestions]. *)
Definition scanned (f : changed) : list suggestion :=
  match f with
  | Parsed file code ast => extractSuggestionsFromAST ast code file
  | _ => []
  end.

(** The last attribute named [key], if there is one. *)
Definition lastNamed (key : jsstring) (attrs : list attribute)
  : option attribute :=
  find (attrNamed key) (rev attrs).

(** A suggestion without its [dataCy]. *)
Definition described (s : suggestion)
  : jsstring * option nat * jsstring * jsstring :=
  (file s, line s, tag s, text s).

(** The attributes that are not spread attributes. *)
Definition named (attrs : list attribute) : list attribute :=
  filter (fun a => match a with
                   | JSXSpreadAttribute _ => false
                   | JSXAttribute _ _ => true
                   end) attrs.

(** ** The scan as a relation

    The same visitor read as a relation between the array of suggestions
    before and after: one rule of [exits] per exit of the method body, and
    one rule of [visits] per kind of node. *)

Inductive exits (file : jsstring)
  : option opening -> list node -> list suggestion -> list suggestion -> Prop :=
| exit_no_opening : forall children s,
    exits file None children s s
| exit_component : forall nameNode attrs l children s,
    isComponent nameNode = true ->
    exits file (Some (JSXOpeningElement nameNode attrs l)) children s s
| exit_not_interactive : forall nameNode attrs l children s,
    isComponent nameNode = false ->
    isInteractive (tagOf nameNode) attrs = false ->
    exits file (Some (JSXOpeningElement nameNode attrs l)) children s s
| exit_has_data_cy : forall nameNode attrs l children s,
    isComponent nameNode = false ->
    isInteractive (tagOf nameNode) attrs = true ->
    hasDataCy attrs = true ->
    exits file (Some (JSXOpeningElement nameNode attrs l)) children s s
| exit_push : forall nameNode attrs l children s,
    isComponent nameNode = false ->
    isInteractive (tagOf nameNode) attrs = true ->
    hasDataCy attrs = false ->
    exits file (Some (JSXOpeningElement nameNode attrs l)) children s
      (s ++ [candidate file (tagOf nameNode) attrs l children (length s)]).

Inductive visits (file : jsstring)
  : node -> list suggestion -> list suggestion -> Prop :=
| visits_element_bare : forall children s s1 s2,
    exits file None children s s1 ->
    visits_all file children s1 s2 ->
    visits file (JSXElement None children) s s2
| visits_element : forall nameNode attrs l children s s1 s2 s3,
    exits file (Some (JSXOpeningElement nameNode attrs l)) children s s1 ->
    visits_attrs file attrs s1 s2 ->
    visits_all file children s2 s3 ->
    visits file (JSXElement (Some (JSXOpeningElement nameNode attrs l))
                   children) s s3
| visits_text : forall v s, visits file (JSXText v) s s
| visits_container : forall e s s1,
    visits file e s s1 -> visits file (JSXExpressionContainer e) s s1
| visits_string : forall v s, visits file (StringLiteral v) s s
| visits_number : forall v s, visits file (NumericLiteral v) s s
| visits_boolean : forall v s, visits file (BooleanLiteral v) s s
| visits_bigint : forall v s, visits file (BigIntLiteral v) s s
| visits_other : forall fields s s1,
    visits_all file fields s s1 -> visits file (Other fields) s s1
with visits_all (file : jsstring)
  : list node -> list suggestion -> list suggestion -> Prop :=
| visits_all_nil : forall s, visits_all file [] s s
| visits_all_cons : forall c rest s s1 s2,
    visits file c s s1 -> visits_all file rest s1 s2 ->
    visits_all file (c :: rest) s s2
with visits_attrs (file : jsstring)
  : list attribute -> list suggestion -> list suggestion -> Prop :=
| visits_attrs_nil : forall s, visits_attrs file [] s s
| visits_attrs_spread : forall e rest s s1 s2,
    visits file e s s1 -> visits_attrs file rest s1 s2 ->
    visits_attrs file (JSXSpreadAttribute e :: rest) s s2
| visits_attrs_valued : forall nm v rest s s1 s2,
    visits file v s s1 -> visits_attrs file rest s1 s2 ->
    visits_attrs file (JSXAttribute nm (Some v) :: rest) s s2
| visits_attrs_bare : forall nm rest s s1,
    visits_attrs file rest s s1 ->
    visits_attrs file (JSXAttribute nm None :: rest) s s1.

Scheme visits_mut := Minimality for visits Sort Prop
  with visits_all_mut := Minimality for visits_all Sort Prop
  with visits_attrs_mut := Minimality for visits_attrs Sort Prop.

End Scanner.

(* ================================================================== *)
(** * src/static/scanner.js: the glue of [run] around the scan *)
(* ================================================================== *)

Module Run.
Import JS Ast.

(** The alternatives of the pattern of line 183, in its order. *)
Definition extensions : list jsstring :=
  [js "jsx"; js "js"; js "tsx"; js "ts"; js "html"].

(** [s] is [pattern] up to the end, letter case apart (the [i] flag, on a
    pattern of lowercase letters and a dot). *)
Fixpoint matchesToEnd (pattern s : jsstring) : bool :=
  match pattern, s with
  | [], [] => true
  | p :: pattern', c :: s' =>
      Ascii.eqb (toLowerCaseChar c) p && matchesToEnd pattern' s'
  | _, _ => false
  end.

(** Line 183: [/\.(jsx|js|tsx|ts|html)$/i.test(f)], the match tried at every
    offset from the left. *)
Fixpoint isRelevant (f : jsstring) : bool :=
  existsb (fun e => matchesToEnd ("."%char :: e) f) extensions
  || match f with
     | [] => false
     | _ :: rest => isRelevant rest
     end.

(** Lines 182-184. *)
Definition relevant (changedFiles : list jsstring) : list jsstring :=
  filter isRelevant changedFiles.

(** Lines 223-226: the text shown in the table cell. *)
Definition safeText (text : jsstring) : jsstring :=
  slice0 100 (blankOut "010"%char (blankOut "|"%char text)).

End Run.

(* ================================================================== *)
(** * The second copy of the scanner

    [src/static/scanner.js] carries a second text of the same script after
    the first (lines 247-417). Its visitor differs from the first in this:
    the tag of a [JSXMemberExpression] is its property, there is no test
    for component names, the label attributes are read from string
    literals only and keep their value once set, and the line number is
    passed on as it is. *)
(* ================================================================== *)

Module ScannerCopy.
Import JS Ast.
Import Scanner.

(** Lines 314-319. *)
Definition tagOf (nameNode : option jsxName) : option jsstring :=
  match nameNode with
  | Some (JSXIdentifier n) => Some (toLowerCase n)
  | Some (JSXMemberExpression (c :: p)) => Some (toLowerCase (c :: p))
  | _ => None
  end.

(** Lines 346-349: [attr.value && attr.value.value] when truthy. *)
Definition setIf (attr : attribute) (cur : option value) : option value :=
  match attrValueValue attr with
  | Some v => if truthy v then Some v else cur
  | None => cur
  end.

(** Lines 344-349. *)
Definition hintStep (h : hints) (attr : attribute) : hints :=
  match attr with
  | JSXSpreadAttribute _ => h
  | JSXAttribute _ _ =>
      let h1 := if attrNamed (js "aria-label") attr
                then mkHints (setIf attr (aria h)) (placeholder h) (alt h)
                       (title h) else h in
      let h2 := if attrNamed (js "placeholder") attr
                then mkHints (aria h1) (setIf attr (placeholder h1)) (alt h1)
                       (title h1) else h1 in
      let h3 := if attrNamed (js "alt") attr
                then mkHints (aria h2) (placeholder h2) (setIf attr (alt h2))
                       (title h2) else h2 in
      if attrNamed (js "title") attr
      then mkHints (aria h3) (placeholder h3) (alt h3) (setIf attr (title h3))
      else h3
  end.

(** Line 352. *)
Definition nameSource (tag : option jsstring) (attrs : list attribute)
  (children : list node) : jsstring :=
  let h := fold_left hintStep attrs (mkHints None None None None) in
  match orElse (Some (VString (childText children)))
          (orElse (aria h)
             (orElse (placeholder h)
                (orElse (alt h)
                   (orElse (title h)
                      (orElse (option_map VString tag)
                              (Some (VString []))))))) with
  | Some v => toString v
  | None => []
  end.

(** Lines 353-363. *)
Definition candidate (file : jsstring) (tag : option jsstring)
  (attrs : list attribute) (l : option nat) (children : list node)
  (index : nat) : suggestion :=
  let src := nameSource tag attrs children in
  {| file := file;
     line := l;
     tag := tagOrEl tag;
     text := src;
     dataCy := NameGenerator.generateTag
                 (NameGenerator.tagTextIndex (tagOrEl tag) src index) |}.

(** Lines 310-366. *)
Definition visitJSXElement (file : jsstring) (o : option opening)
  (children : list node) (suggestions : list suggestion)
  : list suggestion :=
  match o with
  | None => suggestions
  | Some (JSXOpeningElement nameNode attrs l) =>
      let tag := tagOf nameNode in
      if negb (isInteractive tag attrs) then suggestions
      else if hasDataCy attrs then suggestions
      else suggestions
             ++ [candidate file tag attrs l children (length suggestions)]
  end.

Definition extractSuggestionsFromAST (ast : node) (code file : jsstring)
  : list suggestion :=
  visit (visitJSXElement file) ast [].

(** The lowercased tag of the second text is one of the five. *)
Definition interactiveByTag (nameNode : option jsxName) : Prop :=
  exists t, tagOf nameNode = Some t /\ In t interactiveTags.

(** The element gets past the guards of lines 312 and 325. *)
Definition flagged (o : option opening) : bool :=
  match o with
  | None => false
  | Some (JSXOpeningElement nameNode attrs _) =>
      isInteractive (tagOf nameNode) attrs
  end.

(** The attribute is one of the four label attributes. *)
Definition isLabel (a : attribute) : bool :=
  attrNamed (js "aria-label") a || attrNamed (js "placeholder") a
  || attrNamed (js "alt") a || attrNamed (js "title") a.

(** An element on which the two texts of the visitor read the same things:
    its name is no component reference and no member expression, its line
    is not 0, and each of its label attributes has a literal value that is
    truthy. *)
Definition plain (o : option opening) : Prop :=
  match o with
  | None => True
  | Some (JSXOpeningElement nameNode attrs l) =>
      isComponent nameNode = false
      /\ (forall p, nameNode <> Some (JSXMemberExpression p))
      /\ l <> Some 0
      /\ Forall (fun a => isLabel a = true ->
                          exists v, attrValueValue a = Some v
                                    /\ truthy v = true) attrs
  end.

End ScannerCopy.

(* ================================================================== *)
(** * The text token and the child text as the specification words them *)
(* ================================================================== *)

Module SpecText.
Import JS Ast.

(** The literal text a child bears: raw JSX text, or a string literal in
    braces. *)
Definition literalText (ch : node) : option jsstring :=
  match ch with
  | JSXText v => Some v
  | JSXExpressionContainer (StringLiteral v) => Some v
  | _ => None
  end.

(** The first text-bearing child, trimmed: the trimmed literal text of the
    first child whose literal text is not blank. *)
Fixpoint childText (children : list node) : jsstring :=
  match children with
  | [] => []
  | ch :: rest =>
      match literalText ch with
      | Some v => match trim v with
                  | [] => childText rest
                  | t => t
                  end
      | None => childText rest
      end
  end.

(** Splitting on whitespace: the maximal runs of non-whitespace
    characters. [cur] is the word being read. *)
Fixpoint wordsFrom (cur : jsstring) (s : jsstring) : list jsstring :=
  match s with
  | [] => match cur with [] => [] | _ => [cur] end
  | c :: r =>
      if isWhiteSpace c
      then match cur with
           | [] => wordsFrom [] r
           | _ => cur :: wordsFrom [] r
           end
      else wordsFrom (cur ++ [c]) r
  end.

Definition words (s : jsstring) : list jsstring := wordsFrom [] s.

Definition firstLine (s : jsstring) : jsstring :=
  hd [] (split "010"%char s).

(** First line, split on whitespace, at most five words, single spaces. *)
Definition textToken (textHint : jsstring) : jsstring :=
  join (js " ") (slice0 5 (words (firstLine textHint))).

End SpecText.

(* ================================================================== *)
(** * Sample markup *)
(* ================================================================== *)

Module Samples.
Import JS Ast.

(** [<name attrs>children</name>]. *)
Definition el (name : string) (attrs : list attribute) (children : list node)
  : node :=
  JSXElement (Some (JSXOpeningElement (Some (JSXIdentifier (js name))) attrs
                      None)) children.

(** [name="value"]. *)
Definition attr (name value : string) : attribute :=
  JSXAttribute (JSXIdentifier (js name)) (Some (StringLiteral (js value))).

Definition txt (s : string) : node := JSXText (js s).


(** [<MyButton role="button"><button>Go</button></MyButton>]. *)
Definition myButton : node :=
  el "MyButton" [attr "role" "button"] [el "button" [] [txt "Go"]].

(** [<div><button data-cy="save">Save</button><a data-cy="home" href="/">Home</a><p>Hi</p></div>]. *)
Definition annotated : node :=
  el "div" []
     [el "button" [attr "data-cy" "save"] [txt "Save"];
      el "a" [attr "data-cy" "home"; attr "href" "/"] [txt "Home"];
      el "p" [] [txt "Hi"]].

(** [<div><button>First Button</button><button>Second Button</button></div>]. *)
Definition twoButtons : node :=
  el "div" [] [el "button" [] [txt "First Button"];
               el "button" [] [txt "Second Button"]].

(** [<button>Save</button>]. *)
Definition saveButton : node := el "button" [] [txt "Save"].

(** [<button aria-label="Close">{" "}</button>]. *)
Definition closeButton : node :=
  el "button" [attr "aria-label" "Close"]
     [JSXExpressionContainer (StringLiteral (js " "))].

(** [<UI.Box role="button"/>]. *)
Definition uiBox : node :=
  JSXElement (Some (JSXOpeningElement (Some (JSXMemberExpression (js "Box")))
                      [attr "role" "button"] None)) [].

(** The capital E with acute accent, U+00C9. *)
Definition capitalEAcute : ascii := "201"%char.

(** [<Elan role="button"/>] with the capital E with acute accent as first
    letter. *)
Definition elan : node :=
  JSXElement (Some (JSXOpeningElement
                      (Some (JSXIdentifier (capitalEAcute :: js "lan")))
                      [attr "role" "button"] None)) [].

(** Two buttons with the same text of five twelve-letter words. *)
Definition longText : string :=
  "aaaaaaaaaaaa bbbbbbbbbbbb cccccccccccc dddddddddddd eeeeeeeeeeee".

Definition twoLongButtons : node :=
  el "div" [] [el "button" [] [txt longText]; el "button" [] [txt longText]].

End Samples.

(* ================================================================== *)
(** * Facts about the string primitives *)
(* ================================================================== *)

Import JS Ast.

Ltac each_char c := destruct c as [[] [] [] [] [] [] [] []].

Lemma eqb_eq (a b : jsstring) : eqb a b = true <-> a = b.
Proof.
  revert b; induction a as [|c a IH]; intros [|d b]; simpl;
    try (split; [discriminate | discriminate]); try tauto.
  rewrite andb_true_iff, Ascii.eqb_eq, IH.
  split; [intros [-> ->]; reflexivity | intros H; inversion H; auto].
Qed.

Lemma eqb_refl (a : jsstring) : eqb a a = true.
Proof. apply eqb_eq; reflexivity. Qed.

Lemma eqb_neq (a b : jsstring) : eqb a b = false <-> a <> b.
Proof.
  split.
  - intros H E. apply eqb_eq in E. congruence.
  - intros H. destruct (eqb a b) eqn:E; [apply eqb_eq in E; contradiction | reflexivity].
Qed.

Lemma lowerAlnum_fixed c : isLowerAlnum c = true -> toLowerCaseChar c = c.
Proof. each_char c; vm_compute; intros; congruence. Qed.

Lemma lowerAlnum_not_dash c : isLowerAlnum c = true -> c <> "-"%char.
Proof. each_char c; vm_compute; intros; congruence. Qed.

Lemma digit_lowerAlnum c : isDigit c = true -> isLowerAlnum c = true.
Proof. unfold isLowerAlnum; intros ->; apply orb_true_r. Qed.

Lemma toLowerCase_fixed s :
  Forall (fun c => isLowerAlnum c = true) s -> toLowerCase s = s.
Proof.
  induction 1 as [|c s Hc _ IH]; simpl; [reflexivity|].
  rewrite lowerAlnum_fixed, IH; auto.
Qed.

Lemma toLowerCase_app a b : toLowerCase (a ++ b) = toLowerCase a ++ toLowerCase b.
Proof. apply map_app. Qed.

(** Runs: a string of class characters is copied. *)
Lemma replaceRuns_kept keep b s :
  Forall (fun c => keep c = true) s -> replaceRuns keep b s = s.
Proof.
  intros H; revert b; induction H as [|c s Hc _ IH]; intros b; simpl;
    [reflexivity|].
  rewrite Hc, IH; reflexivity.
Qed.

Lemma replaceRuns_kept_app keep b w s :
  Forall (fun c => keep c = true) w ->
  replaceRuns keep b (w ++ s) =
  w ++ replaceRuns keep (match w with [] => b | _ => false end) s.
Proof.
  intros H; revert b; induction H as [|c w Hc Hw IH]; intros b; simpl;
    [reflexivity|].
  rewrite Hc, IH. destruct w; reflexivity.
Qed.

Lemma replaceRuns_before_dash keep b x d :
  keep "-"%char = false ->
  Forall (fun c => keep c = true) d ->
  exists p, replaceRuns keep b (x ++ "-"%char :: d) = p ++ d
            /\ dashEnded p
            /\ (b = false -> p <> []).
Proof.
  intros Hdash Hd; revert b; induction x as [|c x IH]; intros b; simpl.
  - rewrite Hdash, (replaceRuns_kept keep true Hd).
    destruct b.
    + exists []; repeat split; [left; reflexivity | discriminate].
    + exists ["-"%char]; repeat split;
        [right; exists []; reflexivity | discriminate].
  - destruct (keep c) eqn:Hc.
    + destruct (IH false) as (p & -> & Hp & Hne).
      exists (c :: p); repeat split; [|discriminate].
      right. destruct Hp as [->|[q ->]]; [exfalso; apply Hne; reflexivity|].
      exists (c :: q); reflexivity.
    + destruct (IH true) as (p & -> & Hp & _).
      destruct b.
      * exists p; repeat split; [assumption | discriminate].
      * exists ("-"%char :: p); repeat split; [|discriminate].
        right. destruct Hp as [->|[q ->]];
          [exists []; reflexivity | exists ("-"%char :: q); reflexivity].
Qed.

Lemma stripLeadingDash_other c r :
  c <> "-"%char -> stripLeadingDash (c :: r) = c :: r.
Proof.
  intros Hc. unfold stripLeadingDash.
  each_char c; try reflexivity. contradiction.
Qed.

Lemma stripLeadingDash_dashEnded p d :
  dashEnded p -> (p = [] -> forall r, d <> "-"%char :: r) ->
  exists p', stripLeadingDash (p ++ d) = p' ++ d /\ dashEnded p'.
Proof.
  intros [->|[q ->]] Hd.
  - exists []; split; [|left; reflexivity]. simpl app.
    destruct d as [|c d]; [reflexivity|].
    apply stripLeadingDash_other. intros ->. eapply Hd; reflexivity.
  - destruct q as [|c q].
    + exists []; split; [reflexivity | left; reflexivity].
    + destruct (ascii_dec c "-"%char) as [->|Hc].
      * exists (q ++ ["-"%char]); split;
          [reflexivity | right; eexists; reflexivity].
      * exists (c :: q ++ ["-"%char]); split;
          [|right; exists (c :: q); reflexivity].
        simpl app. rewrite stripLeadingDash_other by assumption.
        reflexivity.
Qed.

Lemma stripTrailingDash_last s c :
  c <> "-"%char -> stripTrailingDash (s ++ [c]) = s ++ [c].
Proof.
  intros Hc. unfold stripTrailingDash. rewrite rev_app_distr.
  change (rev [c] ++ rev s) with (c :: rev s).
  rewrite stripLeadingDash_other by assumption.
  simpl. rewrite rev_involutive. reflexivity.
Qed.

Lemma stripTrailingDash_nil : stripTrailingDash [] = [].
Proof. reflexivity. Qed.

(** The decimal numeral of an array length. *)
Lemma string_of_uint_digits d :
  Forall (fun c => isDigit c = true)
         (list_ascii_of_string (NilEmpty.string_of_uint d)).
Proof.
  induction d; simpl; constructor; auto.
Qed.

Lemma stringOfNat_digits n : Forall (fun c => isDigit c = true) (stringOfNat n).
Proof. apply string_of_uint_digits. Qed.

Lemma stringOfNat_inj n m : stringOfNat n = stringOfNat m -> n = m.
Proof.
  unfold stringOfNat. intros H.
  apply (f_equal string_of_list_ascii) in H.
  rewrite !string_of_list_ascii_of_string in H.
  apply (f_equal NilEmpty.uint_of_string) in H.
  rewrite !NilEmpty.usu in H.
  apply DecimalNat.Unsigned.to_uint_inj. congruence.
Qed.

Lemma stringOfNat_nonempty n : stringOfNat n <> [].
Proof.
  intros H. assert (E : stringOfNat n = stringOfNat 0 -> n = 0)
    by apply stringOfNat_inj.
  destruct n as [|n]; [discriminate H|].
  assert (K : Nat.to_uint (S n) = Decimal.Nil).
  { unfold stringOfNat in H.
    destruct (Nat.to_uint (S n)); simpl in H; try discriminate H.
    reflexivity. }
  apply (f_equal Nat.of_uint) in K.
  rewrite DecimalNat.Unsigned.of_to in K. discriminate K.
Qed.

(* ================================================================== *)
(** * Facts about the namer *)
(* ================================================================== *)

Lemma toLowerCase_before_digits x d :
  Forall (fun c => isDigit c = true) d ->
  toLowerCase (x ++ "-"%char :: d) = toLowerCase x ++ "-"%char :: d.
Proof.
  intros Hd. rewrite toLowerCase_app. simpl. f_equal. f_equal.
  apply toLowerCase_fixed.
  eapply Forall_impl; [|exact Hd]. apply digit_lowerAlnum.
Qed.

(** A string that ends in a dash and a numeral keeps the numeral as its
    last segment through [normalize]. *)
Lemma normalize_numeral x d :
  d <> [] -> Forall (fun c => isDigit c = true) d ->
  exists p, NameGenerator.normalize (x ++ "-"%char :: d) = p ++ d
            /\ dashEnded p.
Proof.
  intros Hne Hd. unfold NameGenerator.normalize.
  rewrite toLowerCase_before_digits by assumption.
  assert (Hk : Forall (fun c => isLowerAlnum c = true) d)
    by (eapply Forall_impl; [|exact Hd]; apply digit_lowerAlnum).
  destruct (@replaceRuns_before_dash isLowerAlnum false (toLowerCase x) d
              eq_refl Hk) as (p & -> & Hp & Hp').
  destruct (@stripLeadingDash_dashEnded p d Hp) as (p' & E & Hp'').
  { intros ->. exfalso. apply Hp'; reflexivity. }
  exists p'. split; [|assumption].
  unfold stripDashes. rewrite E.
  destruct (exists_last Hne) as (d' & c & ->).
  rewrite app_assoc. apply stripTrailingDash_last.
  apply lowerAlnum_not_dash. apply digit_lowerAlnum.
  rewrite Forall_app in Hd. destruct Hd as [_ Hc]. inversion Hc; assumption.
Qed.

(** The string handed to [slugify] by the scanner's call. *)
Lemma joined_shape tag text n :
  exists x,
    join (js "-") (NameGenerator.parts (NameGenerator.tagTextIndex tag text n))
    = x ++ "-"%char :: stringOfNat n
    /\ exists y, x = NameGenerator.roleOf tag ++ y.
Proof.
  unfold NameGenerator.parts, NameGenerator.tagTextIndex; simpl.
  destruct (NameGenerator.hintOf _) as [|c t]; simpl.
  - exists (NameGenerator.roleOf tag). split; [reflexivity|].
    exists []. rewrite app_nil_r. reflexivity.
  - exists (NameGenerator.roleOf tag ++ "-"%char :: NameGenerator.textToken (c :: t)).
    split; [|eexists; reflexivity].
    rewrite <- app_assoc. reflexivity.
Qed.

Lemma generateTag_numeral tag text n :
  exists p,
    NameGenerator.normalize
      (join (js "-") (NameGenerator.parts (NameGenerator.tagTextIndex tag text n)))
    = p ++ stringOfNat n /\ dashEnded p.
Proof.
  destruct (joined_shape tag text n) as (x & -> & _).
  apply normalize_numeral;
    [apply stringOfNat_nonempty | apply stringOfNat_digits].
Qed.

Lemma generateTag_nonempty tag text n :
  NameGenerator.generateTag (NameGenerator.tagTextIndex tag text n) <> [].
Proof.
  unfold NameGenerator.generateTag, NameGenerator.slugify, slice0.
  destruct (generateTag_numeral tag text n) as (p & -> & _).
  pose proof (stringOfNat_nonempty n) as Hn.
  destruct p as [|c p]; simpl.
  - destruct (stringOfNat n); [contradiction | discriminate].
  - discriminate.
Qed.

Lemma hintOf_call tag text n :
  NameGenerator.hintOf (NameGenerator.tagTextIndex tag text n) = trim text.
Proof.
  unfold NameGenerator.hintOf, NameGenerator.tagTextIndex; simpl.
  destruct text; reflexivity.
Qed.

Lemma parts_call tag text n :
  NameGenerator.parts (NameGenerator.tagTextIndex tag text n)
  = [NameGenerator.roleOf tag]
    ++ match trim text with
       | [] => []
       | t => [NameGenerator.textToken t]
       end
    ++ [stringOfNat n].
Proof.
  unfold NameGenerator.parts. rewrite hintOf_call. reflexivity.
Qed.

Lemma roleOf_a : NameGenerator.roleOf (js "a") = js "link".
Proof. reflexivity. Qed.

Lemma roleOf_other tag : tag <> js "a" -> NameGenerator.roleOf tag = tag.
Proof.
  intros H. unfold NameGenerator.roleOf.
  apply eqb_neq in H. rewrite H. reflexivity.
Qed.

Lemma roleOf_lowerAlnum tag :
  tag <> [] -> Forall (fun c => isLowerAlnum c = true) tag ->
  NameGenerator.roleOf tag <> []
  /\ Forall (fun c => isLowerAlnum c = true) (NameGenerator.roleOf tag).
Proof.
  intros Hne Hk. unfold NameGenerator.roleOf.
  destruct (eqb tag (js "a")); [|split; assumption].
  split; [discriminate|]. repeat constructor.
Qed.

(** A role and a numeral, both of class characters, are left as they are
    by [normalize]. *)
Lemma normalize_role_numeral w d :
  w <> [] -> d <> [] ->
  Forall (fun c => isLowerAlnum c = true) w ->
  Forall (fun c => isDigit c = true) d ->
  NameGenerator.normalize (w ++ "-"%char :: d) = w ++ "-"%char :: d.
Proof.
  intros Hw Hd Kw Kd. unfold NameGenerator.normalize.
  assert (Kd' : Forall (fun c => isLowerAlnum c = true) d)
    by (eapply Forall_impl; [|exact Kd]; apply digit_lowerAlnum).
  rewrite toLowerCase_before_digits, (toLowerCase_fixed Kw) by assumption.
  rewrite replaceRuns_kept_app by assumption.
  destruct w as [|c w]; [contradiction|].
  cbn [replaceRuns]. change (isLowerAlnum "-"%char) with false. cbn iota.
  rewrite (replaceRuns_kept isLowerAlnum true Kd').
  unfold stripDashes. simpl app.
  rewrite stripLeadingDash_other
    by (apply lowerAlnum_not_dash; inversion Kw; assumption).
  destruct (exists_last Hd) as (d' & e & ->).
  change (c :: w ++ "-"%char :: d' ++ [e])
    with ((c :: w) ++ ("-"%char :: d') ++ [e]).
  rewrite app_assoc. apply stripTrailingDash_last.
  apply lowerAlnum_not_dash.
  rewrite Forall_app in Kd'. destruct Kd' as [_ Ke]. inversion Ke; assumption.
Qed.

(** ** Splitting and joining *)

Lemma split_no_sep sep s :
  Forall (fun c => Ascii.eqb c sep = false) s -> split sep s = [s].
Proof.
  induction 1 as [|c s Hc _ IH]; simpl; [reflexivity|].
  rewrite Hc, IH. reflexivity.
Qed.

Lemma split_app_sep sep w r :
  Forall (fun c => Ascii.eqb c sep = false) w ->
  split sep (w ++ sep :: r) = w :: split sep r.
Proof.
  induction 1 as [|c w Hc _ IH]; simpl.
  - rewrite Ascii.eqb_refl. reflexivity.
  - rewrite Hc, IH. reflexivity.
Qed.

Lemma split_join sep ws :
  ws <> [] ->
  Forall (Forall (fun c => Ascii.eqb c sep = false)) ws ->
  split sep (join [sep] ws) = ws.
Proof.
  intros Hne H. induction H as [|w ws Hw Hws IH]; [contradiction|].
  destruct ws as [|w' ws].
  - simpl. apply split_no_sep; assumption.
  - change (join [sep] (w :: w' :: ws)) with (w ++ sep :: join [sep] (w' :: ws)).
    rewrite split_app_sep by assumption. f_equal. apply IH. discriminate.
Qed.

Lemma dropWhile_head p c s : p c = false -> dropWhile p (c :: s) = c :: s.
Proof. intros H; simpl; rewrite H; reflexivity. Qed.

Lemma trim_fixed s :
  (forall c r, s = c :: r -> isWhiteSpace c = false) ->
  (forall r c, s = r ++ [c] -> isWhiteSpace c = false) ->
  trim s = s.
Proof.
  intros Hhd Hlast. unfold trim, trimEnd, trimStart.
  destruct s as [|c s]; [reflexivity|].
  rewrite dropWhile_head by (eapply Hhd; reflexivity).
  assert (Hne : c :: s <> []) by discriminate.
  destruct (exists_last Hne) as (r & e & E). rewrite E.
  rewrite rev_app_distr. change (rev [e] ++ rev r) with (e :: rev r).
  rewrite dropWhile_head by (eapply Hlast; exact E).
  change (e :: rev r) with ([e] ++ rev r).
  rewrite rev_app_distr, rev_involutive. reflexivity.
Qed.

Lemma join_words_ends ws :
  ws <> [] -> Forall word ws ->
  (exists c r, join (js " ") ws = c :: r /\ isWhiteSpace c = false)
  /\ (exists r c, join (js " ") ws = r ++ [c] /\ isWhiteSpace c = false).
Proof.
  intros Hne H. induction H as [|w ws [Hw Kw] Hws IH]; [contradiction|].
  destruct ws as [|w' ws].
  - simpl. split.
    + destruct w as [|c w]; [contradiction|].
      exists c, w. split; [reflexivity | inversion Kw; assumption].
    + destruct (exists_last Hw) as (r & c & ->).
      exists r, c. split; [reflexivity|].
      rewrite Forall_app in Kw. destruct Kw as [_ K]. inversion K; assumption.
  - change (join (js " ") (w :: w' :: ws))
      with (w ++ js " " ++ join (js " ") (w' :: ws)).
    destruct IH as [_ (r & c & E & Hc)]; [discriminate|]. split.
    + destruct w as [|d w]; [contradiction|].
      exists d. eexists. split; [reflexivity | inversion Kw; assumption].
    + exists (w ++ js " " ++ r), c. split; [|assumption].
      rewrite E. rewrite <- !app_assoc. reflexivity.
Qed.

Lemma trim_join_words ws :
  ws <> [] -> Forall word ws -> trim (join (js " ") ws) = join (js " ") ws.
Proof.
  intros Hne H.
  destruct (join_words_ends Hne H) as [(c & r & E & Hc) (r' & c' & E' & Hc')].
  apply trim_fixed.
  - intros d t Ed. rewrite E in Ed. inversion Ed; subst; assumption.
  - intros t d Ed. rewrite E' in Ed. apply app_inj_tail in Ed.
    destruct Ed as [_ <-]. assumption.
Qed.

Lemma notWhiteSpace_not c sep :
  isWhiteSpace sep = true -> isWhiteSpace c = false -> Ascii.eqb c sep = false.
Proof.
  intros Hs Hc. destruct (Ascii.eqb c sep) eqn:E; [|reflexivity].
  apply Ascii.eqb_eq in E. congruence.
Qed.

Lemma join_words_no_newline ws :
  Forall word ws ->
  Forall (fun c => Ascii.eqb c "010"%char = false) (join (js " ") ws).
Proof.
  induction 1 as [|w ws [_ Kw] Hws IH]; [constructor|].
  assert (Hw : Forall (fun c => Ascii.eqb c "010"%char = false) w).
  { eapply Forall_impl; [|exact Kw]. intros c. apply notWhiteSpace_not.
    reflexivity. }
  destruct ws as [|w' ws]; [exact Hw|].
  change (join (js " ") (w :: w' :: ws))
    with (w ++ js " " ++ join (js " ") (w' :: ws)).
  rewrite !Forall_app. repeat split; try assumption.
  repeat constructor.
Qed.

Lemma textToken_words ws :
  ws <> [] -> Forall word ws ->
  NameGenerator.textToken (join (js " ") ws) = join (js " ") (slice0 5 ws).
Proof.
  intros Hne H. unfold NameGenerator.textToken.
  rewrite (@split_no_sep "010"%char (join (js " ") ws))
    by (apply join_words_no_newline; assumption).
  simpl hd. rewrite trim_join_words by assumption.
  change (js " ") with [" "%char].
  rewrite split_join; [reflexivity | assumption |].
  eapply Forall_impl; [|exact H]. intros w [_ Kw].
  eapply Forall_impl; [|exact Kw]. intros c. apply notWhiteSpace_not.
  reflexivity.
Qed.

(* ================================================================== *)
(** * The namer: role token, text token, totality *)
(* ================================================================== *)

(** C3. The namer turns the role "a" into the token "link" and leaves
    every other role as it is; the role is the first part that is joined;
    and the two listed inputs give "button-submit-form-0" and
    "link-learn-more-2". *)
Theorem namer_role_token :
  NameGenerator.roleOf (js "a") = js "link"
  /\ (forall tag, tag <> js "a" -> NameGenerator.roleOf tag = tag)
  /\ (forall tag text n, exists rest,
        NameGenerator.parts (NameGenerator.tagTextIndex tag text n)
        = NameGenerator.roleOf tag :: rest)
  /\ NameGenerator.generateTag
       (NameGenerator.tagTextIndex (js "button") (js "Submit Form") 0)
     = js "button-submit-form-0"
  /\ NameGenerator.generateTag
       (NameGenerator.tagTextIndex (js "a") (js "Learn More") 2)
     = js "link-learn-more-2".
Proof.
  split; [exact roleOf_a|].
  split; [exact roleOf_other|].
  split; [|split; vm_compute; reflexivity].
  intros tag text n. unfold NameGenerator.parts. simpl. eexists. reflexivity.
Qed.

Lemma namer_role_token_witness :
  js "textarea" <> js "a"
  /\ NameGenerator.roleOf (js "textarea") = js "textarea".
Proof.
  split; [discriminate|].
  apply (proj1 (proj2 namer_role_token)). discriminate.
Defined.

(** C6, as the specification words it, fails: with two spaces between the
    first two words the code keeps an empty piece and only four words reach
    the slug, and a tab does not separate words. *)
Lemma text_token_counterexample :
  NameGenerator.parts
    (NameGenerator.tagTextIndex (js "button") (js "a  b c d e f") 0)
  = [js "button"; js "a  b c d"; js "0"]
  /\ SpecText.textToken (js "a  b c d e f") = js "a b c d e"
  /\ NameGenerator.generateTag
       (NameGenerator.tagTextIndex (js "button") (js "a  b c d e f") 0)
     = js "button-a-b-c-d-0"
  /\ NameGenerator.textToken (trim (js "a  b c d e f"))
     <> SpecText.textToken (js "a  b c d e f").
Proof.
  repeat split; try (vm_compute; reflexivity).
  vm_compute. discriminate.
Qed.

(** C6, amended. The text token is made by trimming the hint, taking what
    precedes the first line feed, trimming again, splitting at every single
    space, keeping at most five pieces and joining them with single spaces;
    for a hint made of words separated by single spaces this is the first
    five words (all of them when there are at most five). *)
Theorem text_token_single_spaces :
  (forall tag text n,
     NameGenerator.parts (NameGenerator.tagTextIndex tag text n)
     = [NameGenerator.roleOf tag]
       ++ match trim text with
          | [] => []
          | t => [join (js " ")
                    (slice0 5 (split " "%char
                                 (trim (hd [] (split "010"%char t)))))]
          end
       ++ [stringOfNat n])
  /\ (forall tag ws n,
        ws <> [] -> Forall word ws ->
        NameGenerator.parts
          (NameGenerator.tagTextIndex tag (join (js " ") ws) n)
        = [NameGenerator.roleOf tag; join (js " ") (slice0 5 ws);
           stringOfNat n]).
Proof.
  split.
  - intros tag text n. apply parts_call.
  - intros tag ws n Hne H.
    rewrite parts_call, trim_join_words by assumption.
    destruct (join_words_ends Hne H) as [(c & r & E & _) _].
    rewrite <- (textToken_words Hne H).
    rewrite E. reflexivity.
Qed.

Lemma text_token_single_spaces_witness :
  NameGenerator.parts
    (NameGenerator.tagTextIndex (js "button")
       (join (js " ") [js "one"; js "two"; js "three"; js "four"; js "five";
                       js "six"]) 4)
  = [js "button"; js "one two three four five"; js "4"].
Proof.
  apply (proj2 text_token_single_spaces (js "button")
           [js "one"; js "two"; js "three"; js "four"; js "five"; js "six"] 4).
  - discriminate.
  - repeat constructor; discriminate.
Defined.

(** C7. For a role that is a non-empty token of [a-z0-9] characters, any
    text hint and any ordinal, [generateTag] returns a non-empty slug; with
    an empty hint the slug is made of the role and the ordinal only, as in
    ("select", "", 3) giving "select-3". *)
Theorem namer_total (tag text : jsstring) (n : nat) :
  tag <> [] -> Forall (fun c => isLowerAlnum c = true) tag ->
  NameGenerator.generateTag (NameGenerator.tagTextIndex tag text n) <> []
  /\ NameGenerator.generateTag (NameGenerator.tagTextIndex tag [] n)
     = slice0 60 (NameGenerator.roleOf tag ++ js "-" ++ stringOfNat n)
  /\ NameGenerator.generateTag
       (NameGenerator.tagTextIndex (js "select") (js "") 3)
     = js "select-3".
Proof.
  intros Hne Hk. split; [apply generateTag_nonempty|].
  split; [|vm_compute; reflexivity].
  unfold NameGenerator.generateTag, NameGenerator.slugify.
  rewrite parts_call. change (trim []) with (@nil ascii).
  cbn [app join].
  destruct (roleOf_lowerAlnum Hne Hk) as [Hr Kr].
  change (js "-" ++ stringOfNat n) with ("-"%char :: stringOfNat n).
  rewrite normalize_role_numeral;
    auto using stringOfNat_nonempty, stringOfNat_digits.
Qed.

Lemma namer_total_witness :
  NameGenerator.generateTag
    (NameGenerator.tagTextIndex (js "input") (js "Email address") 1) <> [].
Proof.
  apply (@namer_total (js "input") (js "Email address") 1).
  - discriminate.
  - repeat constructor.
Defined.

(* ================================================================== *)
(** * The traversal *)
(* ================================================================== *)

Section Traversal.
Variable State : Type.
Variable method : option opening -> list node -> State -> State.

Lemma visit_other fields s :
  visit method (Other fields) s = visitAll method fields s.
Proof.
  unfold visitAll. simpl. revert s.
  induction fields as [|c l IH]; intros s; simpl; [reflexivity | apply IH].
Qed.

Lemma visitOpening_attrs nameNode attrs l s :
  visitOpening method (JSXOpeningElement nameNode attrs l) s
  = visitAttrs method attrs s.
Proof.
  unfold visitAttrs. simpl. revert s.
  induction attrs as [|a r IH]; intros s; simpl; [reflexivity | apply IH].
Qed.

(** The method runs first, then the traversal goes on below the node. *)
Lemma visit_element o children s :
  visit method (JSXElement o children) s
  = traverse method o children (method o children s).
Proof.
  unfold traverse, visitAll. simpl.
  destruct o as [[nameNode attrs l]|].
  - rewrite <- (visitOpening_attrs nameNode attrs l).
    generalize (visitOpening method (JSXOpeningElement nameNode attrs l)
                  (method (Some (JSXOpeningElement nameNode attrs l))
                     children s)).
    induction children as [|c r IH]; intros t; simpl;
      [reflexivity | apply IH].
  - generalize (method None children s).
    induction children as [|c r IH]; intros t; simpl;
      [reflexivity | apply IH].
Qed.

Lemma visit_container e s :
  visit method (JSXExpressionContainer e) s = visit method e s.
Proof. reflexivity. Qed.

End Traversal.

Lemma elements_other fields : elements (Other fields) = flat_map elements fields.
Proof. reflexivity. Qed.

Lemma openingElements_attrs nameNode attrs l :
  openingElements (JSXOpeningElement nameNode attrs l)
  = flat_map attributeElements attrs.
Proof. reflexivity. Qed.

Lemma elements_element o children :
  elements (JSXElement o children)
  = (o, children)
    :: match o with
       | Some (JSXOpeningElement _ attrs _) => flat_map attributeElements attrs
       | None => []
       end
    ++ flat_map elements children.
Proof.
  destruct o as [[nameNode attrs l]|]; reflexivity.
Qed.

(** ** The scan numbers the emitted elements in traversal order *)

Lemma numbered_app file k es1 es2 :
  Scanner.numbered file k (es1 ++ es2)
  = Scanner.numbered file k es1
    ++ Scanner.numbered file (k + length (Scanner.numbered file k es1)) es2.
Proof.
  revert k; induction es1 as [|[[[nameNode attrs l]|] ch] es1 IH]; intros k;
    simpl.
  - rewrite Nat.add_0_r. reflexivity.
  - match goal with |- context [if ?b then _ else _] => destruct b end.
    + simpl. rewrite IH. do 3 f_equal. lia.
    + apply IH.
  - apply IH.
Qed.

Lemma visitJSXElement_numbered file o children s :
  Scanner.visitJSXElement file o children s
  = s ++ Scanner.numbered file (length s) [(o, children)].
Proof.
  destruct o as [[nameNode attrs l]|]; simpl; [|rewrite app_nil_r; reflexivity].
  destruct (Scanner.isComponent nameNode); simpl;
    [rewrite app_nil_r; reflexivity|].
  destruct (Scanner.isInteractive _ attrs); simpl;
    [|rewrite app_nil_r; reflexivity].
  destruct (Scanner.hasDataCy attrs); simpl;
    [rewrite app_nil_r; reflexivity | reflexivity].
Qed.

Lemma numbered_step file s es1 es2 :
  (s ++ Scanner.numbered file (length s) es1)
  ++ Scanner.numbered file
       (length (s ++ Scanner.numbered file (length s) es1)) es2
  = s ++ Scanner.numbered file (length s) (es1 ++ es2).
Proof.
  rewrite numbered_app, length_app, app_assoc. reflexivity.
Qed.

Lemma visitAll_numbered file l :
  Forall (fun n => forall s,
            visit (Scanner.visitJSXElement file) n s
            = s ++ Scanner.numbered file (length s) (elements n)) l ->
  forall s,
    visitAll (Scanner.visitJSXElement file) l s
    = s ++ Scanner.numbered file (length s) (flat_map elements l).
Proof.
  unfold visitAll.
  induction 1 as [|c r Hc _ IH]; intros s; simpl;
    [rewrite app_nil_r; reflexivity|].
  rewrite Hc, IH. apply numbered_step.
Qed.

Lemma visitAttrs_numbered file l :
  Forall (fun a => forall s,
            visitAttribute (Scanner.visitJSXElement file) a s
            = s ++ Scanner.numbered file (length s) (attributeElements a)) l ->
  forall s,
    visitAttrs (Scanner.visitJSXElement file) l s
    = s ++ Scanner.numbered file (length s) (flat_map attributeElements l).
Proof.
  unfold visitAttrs.
  induction 1 as [|c r Hc _ IH]; intros s; simpl;
    [rewrite app_nil_r; reflexivity|].
  rewrite Hc, IH. apply numbered_step.
Qed.

Lemma visit_numbered file n :
  forall s,
    visit (Scanner.visitJSXElement file) n s
    = s ++ Scanner.numbered file (length s) (elements n).
Proof.
  induction n using node_induction with
    (Q := fun op => forall s,
            visitOpening (Scanner.visitJSXElement file) op s
            = s ++ Scanner.numbered file (length s) (openingElements op))
    (R := fun a => forall s,
            visitAttribute (Scanner.visitJSXElement file) a s
            = s ++ Scanner.numbered file (length s) (attributeElements a));
    intros s; try (simpl; rewrite app_nil_r; reflexivity).
  - (* element without opening *)
    rewrite visit_element, elements_element. unfold traverse.
    rewrite visitAll_numbered by assumption.
    rewrite visitJSXElement_numbered. apply numbered_step.
  - (* element with opening *)
    rewrite visit_element, elements_element. unfold traverse.
    destruct op as [nameNode attrs l].
    rewrite visitAll_numbered by assumption.
    rewrite <- (visitOpening_attrs (Scanner.visitJSXElement file)
                  nameNode attrs l), IHn.
    rewrite visitJSXElement_numbered, !numbered_step. reflexivity.
  - (* expression container *)
    rewrite visit_container. apply IHn.
  - (* other nodes *)
    rewrite visit_other, elements_other. apply visitAll_numbered; assumption.
  - (* opening element *)
    rewrite visitOpening_attrs, openingElements_attrs.
    apply visitAttrs_numbered; assumption.
  - (* attribute with a value *)
    simpl. apply IHn.
  - (* spread attribute *)
    simpl. apply IHn.
Qed.

Lemma extract_numbered ast code file :
  Scanner.extractSuggestionsFromAST ast code file
  = Scanner.numbered file 0 (elements ast).
Proof.
  unfold Scanner.extractSuggestionsFromAST. rewrite visit_numbered.
  reflexivity.
Qed.

(* ================================================================== *)
(** * The classification rule *)
(* ================================================================== *)

Lemma attrNamed_iff key a :
  attrNamed key a = true <-> exists v, a = JSXAttribute (JSXIdentifier key) v.
Proof.
  unfold attrNamed, attrName. split.
  - destruct a as [[n| |] v|e]; try discriminate.
    intros H. apply eqb_eq in H. subst. eexists; reflexivity.
  - intros [v ->]. apply eqb_refl.
Qed.

Lemma hasDataCy_iff attrs :
  Scanner.hasDataCy attrs = true <-> Scanner.marked attrs.
Proof.
  unfold Scanner.hasDataCy, Scanner.marked. rewrite existsb_exists. split.
  - intros (a & Ha & Hn). apply attrNamed_iff in Hn. destruct Hn as [v ->].
    exists v; assumption.
  - intros (v & Hv). eexists. split; [exact Hv|].
    apply attrNamed_iff. eexists; reflexivity.
Qed.

Lemma hasRoleButton_iff attrs :
  Scanner.hasRoleButton attrs = true <-> Scanner.interactiveByRole attrs.
Proof.
  unfold Scanner.hasRoleButton, Scanner.interactiveByRole.
  rewrite existsb_exists. split.
  - intros (a & Ha & H). apply andb_true_iff in H. destruct H as [Hn Hv].
    apply attrNamed_iff in Hn. destruct Hn as [v ->].
    destruct v as [v|]; simpl in Hv; [|discriminate].
    exists v. split; [assumption|].
    destruct (propValue v) as [[t| |]|]; try discriminate.
    apply eqb_eq in Hv. subst. reflexivity.
  - intros (v & Hv & Hp). eexists. split; [exact Hv|].
    apply andb_true_iff. split; [apply attrNamed_iff; eexists; reflexivity|].
    simpl. rewrite Hp. apply eqb_refl.
Qed.

Lemma includes_iff nameNode :
  match Scanner.tagOf nameNode with
  | Some t => existsb (eqb t) Scanner.interactiveTags
  | None => false
  end = true <-> Scanner.interactiveByTag nameNode.
Proof.
  unfold Scanner.interactiveByTag, Scanner.tagOf. split.
  - destruct nameNode as [[n| |]|]; try discriminate.
    intros H. apply existsb_exists in H. destruct H as (t & Ht & E).
    apply eqb_eq in E. subst t. exists n. split; [reflexivity | assumption].
  - intros (n & -> & Hin). apply existsb_exists.
    exists (toLowerCase n). split; [assumption | apply eqb_refl].
Qed.

Lemma isInteractive_iff nameNode attrs :
  Scanner.isInteractive (Scanner.tagOf nameNode) attrs = true
  <-> Scanner.interactiveByTag nameNode \/ Scanner.interactiveByRole attrs.
Proof.
  unfold Scanner.isInteractive.
  rewrite orb_true_iff, includes_iff, hasRoleButton_iff. reflexivity.
Qed.

Lemma flagged_iff nameNode attrs l :
  Scanner.flagged (Some (JSXOpeningElement nameNode attrs l)) = true
  <-> Scanner.isComponent nameNode = false
      /\ (Scanner.interactiveByTag nameNode \/ Scanner.interactiveByRole attrs).
Proof.
  unfold Scanner.flagged.
  rewrite andb_true_iff, negb_true_iff, isInteractive_iff. reflexivity.
Qed.

Lemma emitted_iff nameNode attrs l :
  Scanner.emitted (Some (JSXOpeningElement nameNode attrs l)) = true
  <-> Scanner.flagged (Some (JSXOpeningElement nameNode attrs l)) = true
      /\ ~ Scanner.marked attrs.
Proof.
  unfold Scanner.emitted.
  rewrite andb_true_iff, negb_true_iff, <- hasDataCy_iff.
  destruct (Scanner.hasDataCy attrs); intuition congruence.
Qed.

(** Every record of a numbered list stems from an emitted element, and
    carries the number of its place. *)
Lemma nth_error_numbered file es :
  forall k0 k s,
    nth_error (Scanner.numbered file k0 es) k = Some s ->
    exists nameNode attrs l children,
      In (Some (JSXOpeningElement nameNode attrs l), children) es
      /\ Scanner.emitted (Some (JSXOpeningElement nameNode attrs l)) = true
      /\ s = Scanner.candidate file (Scanner.tagOf nameNode) attrs l children
               (k0 + k).
Proof.
  induction es as [|[[[nameNode attrs l]|] ch] es IH]; intros k0 k s H.
  - destruct k; discriminate H.
  - cbn [Scanner.numbered] in H.
    destruct (Scanner.emitted (Some (JSXOpeningElement nameNode attrs l)))
      eqn:E.
    + destruct k as [|k]; simpl in H.
      * inversion H; subst. exists nameNode, attrs, l, ch.
        rewrite Nat.add_0_r. repeat split; [left; reflexivity | assumption].
      * apply IH in H. destruct H as (n' & a' & l' & c' & Hin & He & ->).
        exists n', a', l', c'. repeat split; [right; assumption | assumption|].
        f_equal. lia.
    + apply IH in H. destruct H as (n' & a' & l' & c' & Hin & He & ->).
      exists n', a', l', c'. repeat split; [right; assumption | assumption].
  - cbn [Scanner.numbered] in H.
    apply IH in H. destruct H as (n' & a' & l' & c' & Hin & He & ->).
    exists n', a', l', c'. repeat split; [right; assumption | assumption].
Qed.

Lemma numbered_none file es :
  (forall o children, In (o, children) es -> Scanner.emitted o = false) ->
  forall k, Scanner.numbered file k es = [].
Proof.
  induction es as [|[[[nameNode attrs l]|] ch] es IH]; intros H k;
    [reflexivity| |].
  - cbn [Scanner.numbered].
    rewrite (H _ ch (or_introl eq_refl)).
    apply IH. intros o c Hin. apply (H o c). right; assumption.
  - cbn [Scanner.numbered].
    apply IH. intros o c Hin. apply (H o c). right; assumption.
Qed.

Lemma extracted_sources ast code file k s :
  nth_error (Scanner.extractSuggestionsFromAST ast code file) k = Some s ->
  exists nameNode attrs l children,
    In (Some (JSXOpeningElement nameNode attrs l), children) (elements ast)
    /\ Scanner.emitted (Some (JSXOpeningElement nameNode attrs l)) = true
    /\ s = Scanner.candidate file (Scanner.tagOf nameNode) attrs l children k.
Proof.
  rewrite extract_numbered. intros H.
  apply nth_error_numbered in H. exact H.
Qed.

(* ================================================================== *)
(** * What a traversal keeps *)
(* ================================================================== *)

Section Invariant.
Variable State : Type.
Variable method : option opening -> list node -> State -> State.
Variable Inv : State -> Prop.





End Invariant.

(** ** The rule of the second text *)



(* ================================================================== *)
(** * The classifier: rule, components, marker, ordinals *)
(* ================================================================== *)





(** C2, as stated, fails: the test of lines 77-80 is on a plain identifier
    with a first letter in A-Z, so the first text emits the component
    reference [<UI.Box role="button"/>] (a member expression, as "el-0") and
    an element whose identifier starts with the capital E with acute accent
    (lowered by [toLowerCase], yet outside A-Z); and the second text, which
    has no such test, emits [<MyButton role="button">]. *)
Lemma component_counterexample :
  map Scanner.dataCy
    (Scanner.extractSuggestionsFromAST Samples.uiBox [] (js "f.jsx"))
  = [js "el-0"]
  /\ toLowerCaseChar Samples.capitalEAcute <> Samples.capitalEAcute
  /\ map Scanner.dataCy
       (Scanner.extractSuggestionsFromAST Samples.elan [] (js "f.jsx"))
     = [js "lan-lan-0"]
  /\ map Scanner.dataCy
       (ScannerCopy.extractSuggestionsFromAST Samples.myButton []
          (js "f.jsx"))
     = [js "mybutton-mybutton-0"; js "button-go-1"].
Proof.
  repeat split; try (vm_compute; reflexivity).
  vm_compute. discriminate.
Qed.

(** C2, amended. In the first text of the visitor (lines 61-178) an element
    whose name is a plain identifier starting with a letter of A-Z is never
    pushed, whatever its attributes: the visitor leaves the array as it is
    and goes on through the attribute values and the children of the
    element, and no suggestion of a scan stems from such an element. *)
Theorem component_never_emitted :
  (forall file c r attrs l children s,
     isUpperAZ c = true ->
     let o := Some (JSXOpeningElement (Some (JSXIdentifier (c :: r))) attrs l)
     in
     Scanner.visitJSXElement file o children s = s
     /\ visit (Scanner.visitJSXElement file) (JSXElement o children) s
        = visitAll (Scanner.visitJSXElement file) children
            (visitAttrs (Scanner.visitJSXElement file) attrs s))
  /\ (forall ast code file s,
        In s (Scanner.extractSuggestionsFromAST ast code file) ->
        exists nameNode attrs l children k,
          In (Some (JSXOpeningElement nameNode attrs l), children)
             (elements ast)
          /\ (forall c r, nameNode = Some (JSXIdentifier (c :: r)) ->
                          isUpperAZ c = false)
          /\ s = Scanner.candidate file (Scanner.tagOf nameNode) attrs l
                   children k).
Proof.
  split.
  - intros file c r attrs l children s Hc o. subst o. split.
    + simpl. rewrite Hc. reflexivity.
    + rewrite visit_element. unfold traverse. simpl Scanner.visitJSXElement.
      rewrite Hc. reflexivity.
  - intros ast code file s Hin.
    apply In_nth_error in Hin. destruct Hin as [k Hk].
    apply extracted_sources in Hk.
    destruct Hk as (nameNode & attrs & l & ch & Hin & He & ->).
    apply emitted_iff in He. destruct He as [Hf _].
    apply flagged_iff in Hf. destruct Hf as [Hc _].
    exists nameNode, attrs, l, ch, k. repeat split; try assumption.
    intros c r ->. exact Hc.
Qed.

Lemma component_never_emitted_witness :
  Scanner.visitJSXElement (js "f.jsx")
    (Some (JSXOpeningElement (Some (JSXIdentifier (js "MyButton")))
             [Samples.attr "role" "button"] None))
    [Samples.el "button" [] [Samples.txt "Go"]] []
  = []
  /\ map Scanner.dataCy
       (Scanner.extractSuggestionsFromAST Samples.myButton [] (js "f.jsx"))
     = [js "button-go-0"].
Proof.
  split; [|reflexivity].
  apply (proj1 component_never_emitted (js "f.jsx") "M"%char (js "yButton")
           [Samples.attr "role" "button"] None
           [Samples.el "button" [] [Samples.txt "Go"]] []).
  reflexivity.
Defined.

(** The second copy of the visitor has no test for component names: there
    the same markup gives a record for [<MyButton role="button">] too. *)
Lemma second_copy_emits_component :
  map (fun s => (Scanner.tag s, Scanner.dataCy s))
    (ScannerCopy.extractSuggestionsFromAST Samples.myButton [] (js "f.jsx"))
  = [(js "mybutton", js "mybutton-mybutton-0"); (js "button", js "button-go-1")].
Proof. vm_compute. reflexivity. Qed.

(** C5. An element that carries [data-cy] is not pushed even when it is
    interactive, no suggestion of a scan stems from an element that carries
    it, and a tree in which every element taken for interactive carries it
    gives the empty sequence. *)
Theorem marked_never_emitted :
  (forall file nameNode attrs l children s,
     Scanner.marked attrs ->
     Scanner.visitJSXElement file (Some (JSXOpeningElement nameNode attrs l))
       children s = s)
  /\ (forall ast code file s,
        In s (Scanner.extractSuggestionsFromAST ast code file) ->
        exists nameNode attrs l children k,
          In (Some (JSXOpeningElement nameNode attrs l), children)
             (elements ast)
          /\ ~ Scanner.marked attrs
          /\ s = Scanner.candidate file (Scanner.tagOf nameNode) attrs l
                   children k)
  /\ (forall ast code file,
        (forall nameNode attrs l children,
           In (Some (JSXOpeningElement nameNode attrs l), children)
              (elements ast) ->
           Scanner.flagged (Some (JSXOpeningElement nameNode attrs l)) = true ->
           Scanner.marked attrs) ->
        Scanner.extractSuggestionsFromAST ast code file = []).
Proof.
  repeat split.
  - intros file nameNode attrs l ch s Hm.
    apply hasDataCy_iff in Hm. simpl. rewrite Hm.
    destruct (Scanner.isComponent nameNode); [reflexivity|].
    destruct (negb _); reflexivity.
  - intros ast code file s Hin.
    apply In_nth_error in Hin. destruct Hin as [k Hk].
    apply extracted_sources in Hk.
    destruct Hk as (nameNode & attrs & l & ch & Hin & He & ->).
    apply emitted_iff in He. destruct He as [_ Hm].
    exists nameNode, attrs, l, ch, k. auto.
  - intros ast code file H. rewrite extract_numbered.
    apply numbered_none. intros [[nameNode attrs l]|] ch Hin; [|reflexivity].
    destruct (Scanner.emitted _) eqn:E; [|reflexivity].
    apply emitted_iff in E. destruct E as [Hf Hm].
    exfalso. apply Hm. eapply H; eassumption.
Qed.

Lemma marked_never_emitted_witness :
  Scanner.extractSuggestionsFromAST Samples.annotated [] (js "f.jsx") = [].
Proof.
  apply (proj2 (proj2 marked_never_emitted) Samples.annotated [] (js "f.jsx")).
  intros nameNode attrs l ch Hin Hf. simpl in Hin.
  repeat (destruct Hin as [Hin|Hin];
          [inversion Hin; subst; clear Hin;
           first [apply hasDataCy_iff; reflexivity
                 | vm_compute in Hf; discriminate Hf] | ]).
  contradiction.
Defined.

Lemma collect_from relevant :
  forall all,
    fold_left (fun allSuggestions f =>
                 match f with
                 | Scanner.Parsed file code ast =>
                     allSuggestions
                     ++ Scanner.extractSuggestionsFromAST ast code file
                 | _ => allSuggestions
                 end) relevant all
    = all ++ flat_map Scanner.scanned relevant.
Proof.
  induction relevant as [|f r IH]; intros all; simpl.
  - rewrite app_nil_r. reflexivity.
  - rewrite IH. destruct f; simpl; rewrite <- ?app_assoc; reflexivity.
Qed.

Lemma collect_flat_map relevant :
  Scanner.collect relevant = flat_map Scanner.scanned relevant.
Proof. unfold Scanner.collect. apply collect_from. Qed.

(** C10. The ordinal of a candidate is its zero-based position in the
    sequence of its own file: for the record at position [k] of a file's
    scan the namer is handed [index] equal to [k] (the first one 0) with
    the record's tag and text, a slug shorter than sixty characters ends in
    the decimal [k] as its last segment, and in the sequence that [run]
    collects over several files that record sits after the records of the
    files before it and keeps the ordinal [k]. *)
Theorem ordinal_is_position_in_file :
  (forall ast code file k s,
     nth_error (Scanner.extractSuggestionsFromAST ast code file) k = Some s ->
     Scanner.dataCy s
     = NameGenerator.generateTag
         (NameGenerator.tagTextIndex (Scanner.tag s) (Scanner.text s) k)
     /\ (exists i,
           NameGenerator.index i = Some k
           /\ NameGenerator.tag i = Scanner.tag s
           /\ NameGenerator.text i = Some (Scanner.text s)
           /\ Scanner.dataCy s = NameGenerator.generateTag i)
     /\ (length (Scanner.dataCy s) < 60 ->
         exists p, Scanner.dataCy s = p ++ stringOfNat k /\ dashEnded p)
     /\ exists nameNode attrs l children,
          In (Some (JSXOpeningElement nameNode attrs l), children)
             (elements ast)
          /\ s = Scanner.candidate file (Scanner.tagOf nameNode) attrs l
                   children k)
  /\ (forall before file code ast after k s,
        nth_error (Scanner.extractSuggestionsFromAST ast code file) k = Some s ->
        nth_error
          (Scanner.collect (before ++ Scanner.Parsed file code ast :: after))
          (length (Scanner.collect before) + k) = Some s).
Proof.
  split.
  - intros ast code file k s H. apply extracted_sources in H.
    destruct H as (nameNode & attrs & l & ch & Hin & _ & ->).
    split; [reflexivity|]. split; [|split].
    + eexists. repeat split; reflexivity.
    + cbn [Scanner.candidate Scanner.dataCy].
      unfold NameGenerator.generateTag, NameGenerator.slugify.
      destruct (generateTag_numeral
                  (Scanner.tagOrEl (Scanner.tagOf nameNode))
                  (Scanner.nameSource (Scanner.tagOf nameNode) attrs ch) k)
        as (p & Ep & Hp).
      rewrite Ep. intros Hlen. exists p. split; [|assumption].
      unfold slice0 in *. rewrite length_firstn in Hlen.
      apply firstn_all2. lia.
    + exists nameNode, attrs, l, ch. auto.
  - intros before file code ast after k s H.
    rewrite !collect_flat_map, flat_map_app.
    rewrite nth_error_app2 by lia.
    replace (length (flat_map Scanner.scanned before) + k
             - length (flat_map Scanner.scanned before)) with k by lia.
    simpl. rewrite nth_error_app1; [assumption|].
    apply nth_error_Some. congruence.
Qed.

Lemma ordinal_is_position_in_file_witness :
  nth_error
    (Scanner.collect
       ([Scanner.Parsed (js "a.jsx") [] Samples.saveButton]
        ++ Scanner.Parsed (js "b.jsx") [] Samples.twoButtons :: []))
    (length (Scanner.collect
               [Scanner.Parsed (js "a.jsx") [] Samples.saveButton]) + 1)
  = Some (Scanner.candidate (js "b.jsx") (Some (js "button")) [] None
            [Samples.txt "Second Button"] 1).
Proof.
  apply (proj2 ordinal_is_position_in_file
           [Scanner.Parsed (js "a.jsx") [] Samples.saveButton]
           (js "b.jsx") [] Samples.twoButtons [] 1).
  reflexivity.
Defined.

(* ================================================================== *)
(** * Slugs within a scan *)
(* ================================================================== *)

Lemma dashFree_prefix_unique (a a' x x' : jsstring) :
  Forall (fun c => isDigit c = true) a ->
  Forall (fun c => isDigit c = true) a' ->
  (x = [] \/ exists y, x = "-"%char :: y) ->
  (x' = [] \/ exists y, x' = "-"%char :: y) ->
  a ++ x = a' ++ x' -> a = a'.
Proof.
  intros Ha; revert a'.
  induction Ha as [|c a Hc Ha IH]; intros a' Ha' Hx Hx' E.
  - destruct Ha' as [|c' a' Hc' _]; [reflexivity|]. simpl in E.
    destruct Hx as [->|[y ->]]; [discriminate E|].
    inversion E; subst. discriminate Hc'.
  - destruct Ha' as [|c' a' Hc' Ha']; simpl in E.
    + destruct Hx' as [->|[y ->]]; [discriminate E|].
      inversion E; subst. discriminate Hc.
    + inversion E; subst. f_equal. eapply IH; eassumption.
Qed.

Lemma dashEnded_rev p :
  dashEnded p -> rev p = [] \/ exists y, rev p = "-"%char :: y.
Proof.
  intros [->|[q ->]]; [left; reflexivity|].
  right. rewrite rev_app_distr. simpl. eexists; reflexivity.
Qed.

Lemma numeral_suffix_unique p d p' d' :
  dashEnded p -> dashEnded p' ->
  Forall (fun c => isDigit c = true) d ->
  Forall (fun c => isDigit c = true) d' ->
  p ++ d = p' ++ d' -> d = d'.
Proof.
  intros Hp Hp' Hd Hd' E.
  apply (f_equal (@rev ascii)) in E. rewrite !rev_app_distr in E.
  apply dashFree_prefix_unique in E;
    auto using dashEnded_rev, Forall_rev.
  apply (f_equal (@rev ascii)) in E. rewrite !rev_involutive in E. exact E.
Qed.

Lemma slice0_short (A : Type) n (x : list A) :
  length (slice0 n x) < n -> slice0 n x = x.
Proof.
  unfold slice0. rewrite length_firstn. intros H.
  apply firstn_all2. lia.
Qed.

Lemma generateTag_injective_when_short tag text i tag' text' j :
  length (NameGenerator.generateTag (NameGenerator.tagTextIndex tag text i))
  < 60 ->
  length (NameGenerator.generateTag (NameGenerator.tagTextIndex tag' text' j))
  < 60 ->
  NameGenerator.generateTag (NameGenerator.tagTextIndex tag text i)
  = NameGenerator.generateTag (NameGenerator.tagTextIndex tag' text' j) ->
  i = j.
Proof.
  unfold NameGenerator.generateTag, NameGenerator.slugify.
  intros Hi Hj E.
  rewrite (slice0_short _ Hi), (slice0_short _ Hj) in E.
  destruct (generateTag_numeral tag text i) as (p & Ep & Hp).
  destruct (generateTag_numeral tag' text' j) as (p' & Ep' & Hp').
  rewrite Ep, Ep' in E.
  apply stringOfNat_inj.
  exact (numeral_suffix_unique Hp Hp' (stringOfNat_digits i)
           (stringOfNat_digits j) E).
Qed.

(** C9, as stated, fails: the same markup in two files of one run gives
    the same slug twice, and so do, within one file, two buttons whose text
    fills the sixty characters before the ordinal is reached. *)
Lemma slug_unique_counterexample :
  map Scanner.dataCy
    (Scanner.collect [Scanner.Parsed (js "a.jsx") [] Samples.saveButton;
                      Scanner.Parsed (js "b.jsx") [] Samples.saveButton])
  = [js "button-save-0"; js "button-save-0"]
  /\ map Scanner.dataCy
       (Scanner.extractSuggestionsFromAST Samples.twoLongButtons []
          (js "a.jsx"))
     = [js "button-aaaaaaaaaaaa-bbbbbbbbbbbb-cccccccccccc-dddddddddddd-e";
        js "button-aaaaaaaaaaaa-bbbbbbbbbbbb-cccccccccccc-dddddddddddd-e"].
Proof. split; vm_compute; reflexivity. Qed.

(** C9, amended. Within the scan of one file, two candidates at different
    positions whose slugs are shorter than sixty characters have different
    slugs. *)
Theorem slug_unique_in_file (ast : node) (code file : jsstring) (i j : nat)
  (si sj : Scanner.suggestion) :
  i <> j ->
  nth_error (Scanner.extractSuggestionsFromAST ast code file) i = Some si ->
  nth_error (Scanner.extractSuggestionsFromAST ast code file) j = Some sj ->
  length (Scanner.dataCy si) < 60 ->
  length (Scanner.dataCy sj) < 60 ->
  Scanner.dataCy si <> Scanner.dataCy sj.
Proof.
  intros Hij Hi Hj Li Lj E. apply Hij.
  apply extracted_sources in Hi, Hj.
  destruct Hi as (n1 & a1 & l1 & c1 & _ & _ & ->).
  destruct Hj as (n2 & a2 & l2 & c2 & _ & _ & ->).
  simpl in *. eapply generateTag_injective_when_short; eassumption.
Qed.

Lemma slug_unique_in_file_witness :
  js "button-first-button-0" <> js "button-second-button-1".
Proof.
  apply (@slug_unique_in_file Samples.twoButtons [] (js "f.jsx") 0 1
           (Scanner.candidate (js "f.jsx") (Some (js "button")) [] None
              [Samples.txt "First Button"] 0)
           (Scanner.candidate (js "f.jsx") (Some (js "button")) [] None
              [Samples.txt "Second Button"] 1)).
  - discriminate.
  - reflexivity.
  - reflexivity.
  - vm_compute. lia.
  - vm_compute. lia.
Defined.

(* ================================================================== *)
(** * The scan has one outcome *)
(* ================================================================== *)

Lemma exits_function file o children s s1 :
  Scanner.exits file o children s s1 ->
  s1 = Scanner.visitJSXElement file o children s.
Proof.
  intros H; inversion H; subst; simpl;
    repeat match goal with
           | E : _ = _ |- _ => rewrite E
           end; reflexivity.
Qed.

Lemma exits_total file o children s :
  Scanner.exits file o children s (Scanner.visitJSXElement file o children s).
Proof.
  destruct o as [[nameNode attrs l]|]; simpl; [|constructor].
  destruct (Scanner.isComponent nameNode) eqn:Ec;
    [apply Scanner.exit_component; assumption|].
  destruct (Scanner.isInteractive (Scanner.tagOf nameNode) attrs) eqn:Ei;
    simpl; [|apply Scanner.exit_not_interactive; assumption].
  destruct (Scanner.hasDataCy attrs) eqn:Ed;
    [apply Scanner.exit_has_data_cy | apply Scanner.exit_push]; assumption.
Qed.

Lemma visits_function file n s s1 :
  Scanner.visits file n s s1 ->
  s1 = visit (Scanner.visitJSXElement file) n s.
Proof.
  revert n s s1.
  apply (@Scanner.visits_mut file
           (fun n s s1 => s1 = visit (Scanner.visitJSXElement file) n s)
           (fun l s s1 => s1 = visitAll (Scanner.visitJSXElement file) l s)
           (fun l s s1 => s1 = visitAttrs (Scanner.visitJSXElement file) l s));
    intros; subst; try reflexivity;
    try (rewrite visit_element; unfold traverse);
    try rewrite visit_other;
    repeat match goal with
           | H : Scanner.exits _ _ _ _ _ |- _ =>
               apply exits_function in H; subst
           end;
    reflexivity.
Qed.

Lemma visits_all_total file l :
  Forall (fun n => forall s,
            Scanner.visits file n s
              (visit (Scanner.visitJSXElement file) n s)) l ->
  forall s,
    Scanner.visits_all file l s
      (visitAll (Scanner.visitJSXElement file) l s).
Proof.
  unfold visitAll.
  induction 1 as [|c r Hc _ IH]; intros s; simpl; [constructor|].
  econstructor; [apply Hc | apply IH].
Qed.

Lemma visits_total file n :
  forall s,
    Scanner.visits file n s (visit (Scanner.visitJSXElement file) n s).
Proof.
  induction n using node_induction with
    (Q := fun op => match op with
                    | JSXOpeningElement _ attrs _ =>
                        forall s,
                          Scanner.visits_attrs file attrs s
                            (visitAttrs (Scanner.visitJSXElement file) attrs s)
                    end)
    (R := fun a => forall rest s s1,
            Scanner.visits_attrs file rest
              (visitAttribute (Scanner.visitJSXElement file) a s) s1 ->
            Scanner.visits_attrs file (a :: rest) s s1);
    try (intros s; simpl; constructor; fail).
  - intros s. rewrite visit_element. unfold traverse.
    eapply Scanner.visits_element_bare;
      [apply exits_total | apply visits_all_total; assumption].
  - intros s. rewrite visit_element. unfold traverse.
    destruct op as [nameNode attrs l].
    eapply Scanner.visits_element;
      [apply exits_total | apply IHn | apply visits_all_total; assumption].
  - intros s. rewrite visit_container. constructor. apply IHn.
  - intros s. rewrite visit_other. constructor.
    apply visits_all_total; assumption.
  - unfold visitAttrs.
    induction H as [|a r Ha _ IH]; intros s; simpl; [constructor|].
    apply Ha. apply IH.
  - intros rest s s1 H. simpl in H.
    eapply Scanner.visits_attrs_valued; [apply IHn | exact H].
  - intros rest s s1 H. simpl in H.
    apply Scanner.visits_attrs_bare. exact H.
  - intros rest s s1 H. simpl in H.
    eapply Scanner.visits_attrs_spread; [apply IHn | exact H].
Qed.

(** The relational reading and the function agree: from a given tree, file
    name and empty array the rules reach the array
    [extractSuggestionsFromAST] returns and no other, whatever source text
    is passed along. *)
Theorem scan_deterministic (file : jsstring) (ast : node)
  (out1 out2 : list Scanner.suggestion) :
  Scanner.visits file ast [] out1 ->
  Scanner.visits file ast [] out2 ->
  out1 = out2
  /\ map Scanner.dataCy out1 = map Scanner.dataCy out2
  /\ (forall code, out1 = Scanner.extractSuggestionsFromAST ast code file)
  /\ (forall code,
        Scanner.visits file ast []
          (Scanner.extractSuggestionsFromAST ast code file)).
Proof.
  intros H1 H2.
  apply visits_function in H1, H2. subst.
  repeat split; intros; apply visits_total.
Qed.

Lemma scan_deterministic_witness :
  map Scanner.dataCy
    (Scanner.extractSuggestionsFromAST Samples.twoButtons [] (js "f.jsx"))
  = map Scanner.dataCy
      (Scanner.extractSuggestionsFromAST Samples.twoButtons (js "x")
         (js "f.jsx")).
Proof.
  apply (@scan_deterministic (js "f.jsx") Samples.twoButtons
           (Scanner.extractSuggestionsFromAST Samples.twoButtons []
              (js "f.jsx"))
           (Scanner.extractSuggestionsFromAST Samples.twoButtons (js "x")
              (js "f.jsx"))).
  - apply visits_total.
  - apply visits_total.
Defined.

(* ================================================================== *)
(** * The label hint *)
(* ================================================================== *)

(** The loop over the children gives the trimmed text of the first
    text-bearing child whenever the string literals in braces among them
    are trimmed and not empty. *)
Lemma childText_trimmed children :
  (forall v, In (JSXExpressionContainer (StringLiteral v)) children ->
             v <> [] /\ trim v = v) ->
  Scanner.childText children = SpecText.childText children.
Proof.
  induction children as [|ch rest IH]; intros H; [reflexivity|].
  assert (IH' : Scanner.childText rest = SpecText.childText rest)
    by (apply IH; intros v Hv; apply H; right; assumption).
  destruct ch as [o c|v|e|v|v|v|v|l]; simpl; try assumption.
  - destruct (trim v); [assumption | reflexivity].
  - destruct e as [o c|v|e|v|v|v|v|l]; simpl; try assumption.
    destruct (H v (or_introl eq_refl)) as [Hne Ht]. rewrite Ht.
    destruct v; [contradiction | reflexivity].
Qed.

(** C4 on [<button aria-label="Close">{" "}</button>]: the child is a
    string literal in braces, its text is taken as it is, a single space,
    and being a non-empty string it wins over the [aria-label], which the
    text of a [JSXText] child, trimmed first, would not. *)
Theorem blank_literal_child_hides_label :
  Scanner.childText [JSXExpressionContainer (StringLiteral (js " "))] = js " "
  /\ SpecText.childText [JSXExpressionContainer (StringLiteral (js " "))] = []
  /\ Scanner.childText [JSXText (js " ")] = []
  /\ Scanner.aria (Scanner.attrHints [Samples.attr "aria-label" "Close"])
     = Some (VString (js "Close"))
  /\ Scanner.extractSuggestionsFromAST Samples.closeButton [] (js "f.jsx")
     = [Scanner.mkSuggestion (js "f.jsx") None (js "button") (js " ")
          (js "button-0")].
Proof. repeat split; vm_compute; reflexivity. Qed.

(* ================================================================== *)
(** * More about [slugify] *)
(* ================================================================== *)

Lemma lower_alnum c : isLowerAlnum (toLowerCaseChar c) = isAlnum c.
Proof. each_char c; vm_compute; reflexivity. Qed.

Lemma toLowerCaseChar_idem c :
  toLowerCaseChar (toLowerCaseChar c) = toLowerCaseChar c.
Proof. each_char c; vm_compute; reflexivity. Qed.

Lemma slugChar_fixed c : isSlugChar c = true -> toLowerCaseChar c = c.
Proof. each_char c; vm_compute; intros; congruence. Qed.

Lemma slugChar_cases c :
  isSlugChar c = true -> isLowerAlnum c = true \/ c = "-"%char.
Proof.
  unfold isSlugChar. rewrite orb_true_iff, Ascii.eqb_eq. tauto.
Qed.

Lemma dash_eqb_lowerAlnum c :
  isLowerAlnum c = true -> Ascii.eqb c "-"%char = false.
Proof.
  intros H. destruct (Ascii.eqb c "-"%char) eqn:E; [|reflexivity].
  apply Ascii.eqb_eq in E. subst. discriminate H.
Qed.

(** ** What survives the replacement of runs *)

Lemma replaceRuns_slugChars b s :
  Forall (fun c => isSlugChar c = true) (replaceRuns isLowerAlnum b s).
Proof.
  revert b; induction s as [|c s IH]; intros b; simpl; [constructor|].
  destruct (isLowerAlnum c) eqn:E.
  - constructor; [unfold isSlugChar; rewrite E; reflexivity | apply IH].
  - destruct b; [apply IH|]. constructor; [reflexivity | apply IH].
Qed.

Lemma replaceRuns_head_in_run s :
  forall r, replaceRuns isLowerAlnum true s <> "-"%char :: r.
Proof.
  induction s as [|c s IH]; intros r; simpl; [discriminate|].
  destruct (isLowerAlnum c) eqn:E; [|apply IH].
  intros H. inversion H; subst. discriminate E.
Qed.

Lemma replaceRuns_singleDashes b s :
  singleDashes (replaceRuns isLowerAlnum b s) = true.
Proof.
  revert b; induction s as [|c s IH]; intros b; simpl; [reflexivity|].
  destruct (isLowerAlnum c) eqn:E.
  - simpl. rewrite (dash_eqb_lowerAlnum _ E), IH. reflexivity.
  - destruct b; [apply IH|]. simpl. rewrite IH.
    destruct (replaceRuns isLowerAlnum true s) as [|d t] eqn:R;
      [reflexivity|].
    destruct (Ascii.eqb d "-"%char) eqn:D; [|reflexivity].
    apply Ascii.eqb_eq in D. subst d.
    exfalso. exact (replaceRuns_head_in_run s R).
Qed.

Lemma singleDashes_tail c s : singleDashes (c :: s) = true -> singleDashes s = true.
Proof. simpl. rewrite andb_true_iff. tauto. Qed.

Lemma singleDashes_second s r :
  singleDashes ("-"%char :: s) = true -> s <> "-"%char :: r.
Proof.
  simpl. intros H ->. simpl in H. discriminate H.
Qed.

Lemma singleDashes_app_left a b :
  singleDashes (a ++ b) = true -> singleDashes a = true.
Proof.
  induction a as [|c a IH]; [reflexivity|]. simpl.
  rewrite !andb_true_iff. intros [H1 H2]. split; [|auto].
  destruct a as [|d a]; simpl in *.
  - rewrite andb_false_r. reflexivity.
  - exact H1.
Qed.

Lemma singleDashes_no_pair s :
  singleDashes s = true -> forall a b, s <> a ++ "-"%char :: "-"%char :: b.
Proof.
  intros H a; revert s H; induction a as [|c a IH]; intros s H b E; subst.
  - simpl in H. discriminate H.
  - apply singleDashes_tail in H. exact (IH _ H b eq_refl).
Qed.

Lemma stripTrailingDash_snoc s c :
  stripTrailingDash (s ++ [c])
  = if Ascii.eqb c "-"%char then s else s ++ [c].
Proof.
  destruct (Ascii.eqb c "-"%char) eqn:E.
  - apply Ascii.eqb_eq in E. subst. unfold stripTrailingDash.
    rewrite rev_app_distr. simpl. apply rev_involutive.
  - apply stripTrailingDash_last. intros ->. discriminate E.
Qed.

Lemma stripTrailingDash_prefix s :
  exists t, s = stripTrailingDash s ++ t.
Proof.
  destruct s as [|c s]; [exists []; reflexivity|].
  assert (Hne : c :: s <> []) by discriminate.
  destruct (exists_last Hne) as (q & d & ->).
  rewrite stripTrailingDash_snoc.
  destruct (Ascii.eqb d "-"%char); [exists [d] | exists []];
    rewrite ?app_nil_r; reflexivity.
Qed.

Lemma stripLeadingDash_suffix s :
  exists t, s = t ++ stripLeadingDash s.
Proof.
  destruct s as [|c s]; [exists []; reflexivity|].
  destruct (ascii_dec c "-"%char) as [->|H].
  - exists ["-"%char]. reflexivity.
  - exists []. rewrite stripLeadingDash_other by assumption. reflexivity.
Qed.

Lemma singleDashes_app_right a b :
  singleDashes (a ++ b) = true -> singleDashes b = true.
Proof.
  induction a as [|c a IH]; [auto|]. intros H.
  apply IH. exact (singleDashes_tail _ _ H).
Qed.

Lemma normalize_tidy s : tidy (NameGenerator.normalize s).
Proof.
  unfold NameGenerator.normalize, stripDashes.
  pose proof (replaceRuns_slugChars false (toLowerCase s)) as Hc.
  pose proof (replaceRuns_singleDashes false (toLowerCase s)) as Hs.
  set (t := replaceRuns isLowerAlnum false (toLowerCase s)) in *.
  assert (Hu : Forall (fun c => isSlugChar c = true) (stripLeadingDash t)
               /\ singleDashes (stripLeadingDash t) = true
               /\ forall r, stripLeadingDash t <> "-"%char :: r).
  { destruct t as [|c t']; [repeat split; auto; discriminate|].
    destruct (ascii_dec c "-"%char) as [->|Hn].
    - simpl stripLeadingDash. repeat split.
      + inversion Hc; assumption.
      + exact (singleDashes_tail _ _ Hs).
      + intros r. apply singleDashes_second. exact Hs.
    - rewrite stripLeadingDash_other by assumption. repeat split; auto.
      intros r E. inversion E. contradiction. }
  clearbody t. clear Hc Hs. destruct Hu as (Hc & Hs & Hh).
  set (u := stripLeadingDash t) in *. clearbody u.
  destruct (stripTrailingDash_prefix u) as [tl E].
  repeat split.
  - rewrite E in Hc. apply Forall_app in Hc. tauto.
  - rewrite E in Hs. exact (singleDashes_app_left _ _ Hs).
  - intros r E'. rewrite E' in E. simpl in E. exact (Hh _ E).
  - intros q E'.
    destruct u as [|c u']; [destruct q; discriminate E'|].
    assert (Hne : c :: u' <> []) by discriminate.
    destruct (exists_last Hne) as (w & d & Ew). rewrite Ew in *.
    rewrite stripTrailingDash_snoc in E'.
    destruct (Ascii.eqb d "-"%char) eqn:D.
    + apply Ascii.eqb_eq in D. subst d w.
      apply (singleDashes_no_pair Hs q []).
      rewrite <- app_assoc. reflexivity.
    + apply app_inj_tail in E'. destruct E' as [_ ->]. discriminate D.
Qed.

Lemma slice0_prefix (A : Type) n (l : list A) :
  exists t, l = slice0 n l ++ t.
Proof. exists (skipn n l). unfold slice0. symmetry. apply firstn_skipn. Qed.

Lemma slugify_length s : length (NameGenerator.slugify s) <= 60.
Proof.
  unfold NameGenerator.slugify, slice0. rewrite length_firstn. lia.
Qed.

Lemma slugify_chars s :
  Forall (fun c => isLowerAlnum c = true \/ c = "-"%char)
         (NameGenerator.slugify s).
Proof.
  unfold NameGenerator.slugify.
  destruct (normalize_tidy s) as (Hc & _).
  destruct (slice0_prefix 60 (NameGenerator.normalize s)) as [t E].
  rewrite E in Hc. apply Forall_app in Hc. destruct Hc as [Hc _].
  eapply Forall_impl; [|exact Hc]. apply slugChar_cases.
Qed.

Lemma slugify_head s : forall r, NameGenerator.slugify s <> "-"%char :: r.
Proof.
  unfold NameGenerator.slugify.
  destruct (normalize_tidy s) as (_ & _ & Hh & _).
  destruct (slice0_prefix 60 (NameGenerator.normalize s)) as [t E].
  intros r E'. rewrite E' in E. exact (Hh _ E).
Qed.

(** X1. Whatever the input, the slug has at most sixty characters, all of
    them lowercase letters, digits or dashes. *)
Theorem slugify_alphabet (s : jsstring) :
  length (NameGenerator.slugify s) <= 60
  /\ Forall (fun c => isLowerAlnum c = true \/ c = "-"%char)
            (NameGenerator.slugify s).
Proof.
  split; [apply slugify_length | apply slugify_chars].
Qed.

(** X2. A slug never starts with a dash and never has two dashes in a row;
    it does not end in a dash either unless the cut at sixty characters
    falls right after one. *)
Theorem slugify_dashes (s : jsstring) :
  (forall r, NameGenerator.slugify s <> "-"%char :: r)
  /\ (forall a b, NameGenerator.slugify s <> a ++ "-"%char :: "-"%char :: b)
  /\ (length (NameGenerator.normalize s) <= 60 ->
      forall q, NameGenerator.slugify s <> q ++ ["-"%char]).
Proof.
  unfold NameGenerator.slugify.
  destruct (normalize_tidy s) as (_ & Hs & Hh & Hl).
  destruct (slice0_prefix 60 (NameGenerator.normalize s)) as [t E].
  repeat split.
  - intros r E'. rewrite E' in E. exact (Hh _ E).
  - apply singleDashes_no_pair. rewrite E in Hs.
    exact (singleDashes_app_left _ _ Hs).
  - intros Hlen q. unfold slice0. rewrite firstn_all2 by assumption.
    apply Hl.
Qed.

Lemma slugify_dashes_witness :
  ~ exists q,
      NameGenerator.slugify (js "--Save & Close!--") = q ++ ["-"%char].
Proof.
  intros [q E]. revert E.
  apply (proj2 (proj2 (slugify_dashes (js "--Save & Close!--")))).
  vm_compute. lia.
Defined.

Lemma replaceRuns_none keep b s :
  Forall (fun c => keep c = false) s ->
  replaceRuns keep b s = if b then [] else match s with
                                           | [] => []
                                           | _ => ["-"%char]
                                           end.
Proof.
  intros H; revert b; induction H as [|c s Hc _ IH]; intros b; simpl.
  - destruct b; reflexivity.
  - rewrite Hc. destruct b; rewrite IH; reflexivity.
Qed.

Lemma replaceRuns_keeps keep b s c :
  In c s -> keep c = true -> In c (replaceRuns keep b s).
Proof.
  revert b; induction s as [|d s IH]; intros b Hin Hk; [contradiction|].
  simpl. destruct Hin as [->|Hin].
  - rewrite Hk. left; reflexivity.
  - destruct (keep d); [right; auto|].
    destruct b; [auto | right; auto].
Qed.

Lemma stripLeadingDash_keeps s c :
  In c s -> c <> "-"%char -> In c (stripLeadingDash s).
Proof.
  intros Hin Hc. destruct s as [|d s]; [contradiction|].
  destruct (ascii_dec d "-"%char) as [->|Hd].
  - simpl. destruct Hin as [E|Hin]; [congruence | assumption].
  - rewrite stripLeadingDash_other by assumption. assumption.
Qed.

Lemma stripDashes_keeps s c :
  In c s -> c <> "-"%char -> In c (stripDashes s).
Proof.
  intros Hin Hc. unfold stripDashes, stripTrailingDash.
  apply -> in_rev. apply stripLeadingDash_keeps; [|assumption].
  apply -> in_rev. apply stripLeadingDash_keeps; assumption.
Qed.

Lemma slice0_nil (A : Type) n (l : list A) :
  0 < n -> (slice0 n l = [] <-> l = []).
Proof.
  intros Hn. unfold slice0. split; [|intros ->; apply firstn_nil].
  destruct l; [reflexivity|]. destruct n; [lia | discriminate].
Qed.

(** X3. For an input of Latin-1 characters (code units below 256, the
    strings of this development), the slug is empty exactly when the input
    has no letter of A-Z or a-z and no digit; the empty string is such an
    input. *)
Theorem slugify_empty_iff (s : jsstring) :
  NameGenerator.slugify s = [] <-> Forall (fun c => isAlnum c = false) s.
Proof.
  unfold NameGenerator.slugify. split.
  - intros E. apply slice0_nil in E; [|lia].
    apply Forall_forall. intros c Hin.
    destruct (isAlnum c) eqn:K; [exfalso | reflexivity].
    assert (Hl : In (toLowerCaseChar c) (NameGenerator.normalize s)).
    { unfold NameGenerator.normalize. apply stripDashes_keeps.
      - apply replaceRuns_keeps; [apply in_map; assumption|].
        rewrite lower_alnum. assumption.
      - apply lowerAlnum_not_dash. rewrite lower_alnum. assumption. }
    rewrite E in Hl. contradiction.
  - intros H. apply slice0_nil; [lia|]. unfold NameGenerator.normalize.
    rewrite replaceRuns_none.
    + destruct (toLowerCase s); reflexivity.
    + unfold toLowerCase. apply Forall_map.
      eapply Forall_impl; [|exact H]. intros c Hc.
      rewrite lower_alnum. assumption.
Qed.

Lemma slugify_empty_iff_witness : NameGenerator.slugify (js " -- ?! ") = [].
Proof.
  apply (proj2 (slugify_empty_iff (js " -- ?! "))).
  repeat constructor.
Defined.

Lemma toLowerCase_slugChars t :
  Forall (fun c => isSlugChar c = true) t -> toLowerCase t = t.
Proof.
  induction 1 as [|c t Hc _ IH]; simpl; [reflexivity|].
  rewrite slugChar_fixed, IH by assumption. reflexivity.
Qed.

Lemma replaceRuns_tidy b t :
  Forall (fun c => isSlugChar c = true) t ->
  singleDashes t = true ->
  (b = true -> forall r, t <> "-"%char :: r) ->
  replaceRuns isLowerAlnum b t = t.
Proof.
  intros Hc; revert b; induction Hc as [|c t Hc _ IH]; intros b Hs Hh;
    [reflexivity|].
  simpl. destruct (slugChar_cases _ Hc) as [K| ->].
  - rewrite K. f_equal. apply IH;
      [exact (singleDashes_tail _ _ Hs) | discriminate].
  - change (isLowerAlnum "-"%char) with false. cbn iota.
    destruct b; [exfalso; exact (Hh eq_refl t eq_refl)|].
    f_equal. apply IH; [exact (singleDashes_tail _ _ Hs)|].
    intros _ r. apply singleDashes_second. exact Hs.
Qed.

Lemma normalize_headed t :
  Forall (fun c => isSlugChar c = true) t ->
  singleDashes t = true ->
  (forall r, t <> "-"%char :: r) ->
  NameGenerator.normalize t = stripTrailingDash t.
Proof.
  intros Hc Hs Hh. unfold NameGenerator.normalize, stripDashes.
  rewrite toLowerCase_slugChars, replaceRuns_tidy by (auto; discriminate).
  f_equal. destruct t as [|c t]; [reflexivity|].
  apply stripLeadingDash_other. intros ->. exact (Hh t eq_refl).
Qed.

Lemma stripTrailingDash_tidy t :
  (forall q, t <> q ++ ["-"%char]) -> stripTrailingDash t = t.
Proof.
  intros Hl. destruct t as [|c t]; [reflexivity|].
  assert (Hne : c :: t <> []) by discriminate.
  destruct (exists_last Hne) as (w & d & E). rewrite E in *.
  apply stripTrailingDash_last. intros ->. exact (Hl w eq_refl).
Qed.

(** X4. Normalising is idempotent. Slugifying a slug only removes the dash
    the cut at sixty characters may have left at its end, so a slug that was
    not cut is a fixed point of [slugify]. *)
Theorem slugify_twice (s : jsstring) :
  NameGenerator.normalize (NameGenerator.normalize s)
  = NameGenerator.normalize s
  /\ NameGenerator.slugify (NameGenerator.slugify s)
     = stripTrailingDash (NameGenerator.slugify s)
  /\ (length (NameGenerator.normalize s) <= 60 ->
      NameGenerator.slugify (NameGenerator.slugify s)
      = NameGenerator.slugify s).
Proof.
  destruct (normalize_tidy s) as (Hc & Hs & Hh & Hl).
  assert (N : NameGenerator.normalize (NameGenerator.normalize s)
              = NameGenerator.normalize s).
  { rewrite normalize_headed by assumption.
    apply stripTrailingDash_tidy; assumption. }
  assert (T : NameGenerator.slugify (NameGenerator.slugify s)
              = stripTrailingDash (NameGenerator.slugify s)).
  { unfold NameGenerator.slugify at 1.
    destruct (slice0_prefix 60 (NameGenerator.normalize s)) as [t E].
    fold (NameGenerator.slugify s) in E.
    rewrite normalize_headed.
    - unfold slice0. apply firstn_all2.
      destruct (stripTrailingDash_prefix (NameGenerator.slugify s))
        as [tl E'].
      pose proof (slugify_length s) as L.
      rewrite E' in L at 1. rewrite length_app in L. lia.
    - rewrite E in Hc. apply Forall_app in Hc. tauto.
    - rewrite E in Hs. exact (singleDashes_app_left _ _ Hs).
    - intros r E'. rewrite E' in E. exact (Hh _ E). }
  repeat split; [exact N | exact T|].
  intros Hlen. rewrite T. unfold NameGenerator.slugify, slice0.
  rewrite firstn_all2 by assumption.
  apply stripTrailingDash_tidy; assumption.
Qed.

Lemma slugify_twice_witness :
  NameGenerator.slugify (NameGenerator.slugify (js "Submit Form"))
  = NameGenerator.slugify (js "Submit Form").
Proof.
  apply (proj2 (proj2 (slugify_twice (js "Submit Form")))).
  vm_compute. lia.
Defined.

(** X5. The slug does not depend on the letter case of the input. *)
Theorem slugify_ignores_case (s : jsstring) :
  NameGenerator.slugify (toLowerCase s) = NameGenerator.slugify s.
Proof.
  unfold NameGenerator.slugify, NameGenerator.normalize.
  do 3 f_equal. unfold toLowerCase. rewrite map_map.
  apply map_ext. apply toLowerCaseChar_idem.
Qed.

(* ================================================================== *)
(** * More about [generateTag] *)
(* ================================================================== *)

Lemma join_snoc sep l x :
  l <> [] -> join sep (l ++ [x]) = join sep l ++ sep ++ x.
Proof.
  induction l as [|p l IH]; intros H; [contradiction|].
  destruct l as [|q l]; [reflexivity|].
  change (join sep ((p :: q :: l) ++ [x]))
    with (p ++ sep ++ join sep ((q :: l) ++ [x])).
  rewrite IH by discriminate.
  change (join sep (p :: q :: l)) with (p ++ sep ++ join sep (q :: l)).
  rewrite <- !app_assoc. reflexivity.
Qed.

(** X6. Whenever an index is passed, with or without a component path or a
    text, the slug is not empty; and when it is shorter than sixty
    characters its last dash-separated segment is the decimal index. *)
Theorem generateTag_keeps_index (i : NameGenerator.info) (n : nat) :
  NameGenerator.index i = Some n ->
  NameGenerator.generateTag i <> []
  /\ (length (NameGenerator.generateTag i) < 60 ->
      exists p, NameGenerator.generateTag i = p ++ stringOfNat n
                /\ dashEnded p).
Proof.
  intros Hi.
  assert (S : exists x,
             join (js "-") (NameGenerator.parts i)
             = x ++ "-"%char :: stringOfNat n).
  { unfold NameGenerator.parts. rewrite Hi.
    rewrite !app_assoc, join_snoc.
    - eexists. reflexivity.
    - intros E. apply app_eq_nil in E. destruct E as [E _].
      apply app_eq_nil in E. destruct E as [_ E]. discriminate E. }
  destruct S as [x Ex].
  destruct (@normalize_numeral x (stringOfNat n)
              (stringOfNat_nonempty n) (stringOfNat_digits n))
    as (p & Ep & Hp).
  unfold NameGenerator.generateTag, NameGenerator.slugify.
  rewrite Ex, Ep. split.
  - pose proof (stringOfNat_nonempty n) as Hn.
    unfold slice0. destruct p; simpl; [|discriminate].
    destruct (stringOfNat n); [contradiction | discriminate].
  - intros Hlen. rewrite (slice0_short _ Hlen). exists p. auto.
Qed.

Lemma generateTag_keeps_index_witness :
  exists p,
    NameGenerator.generateTag
      (NameGenerator.mkInfo (Some (js "src/Form.jsx")) (js "a")
         None (Some (js "Learn More")) None None (Some 12))
    = p ++ stringOfNat 12 /\ dashEnded p.
Proof.
  apply (@generateTag_keeps_index
           (NameGenerator.mkInfo (Some (js "src/Form.jsx")) (js "a")
              None (Some (js "Learn More")) None None (Some 12)) 12).
  - reflexivity.
  - vm_compute. lia.
Defined.

(** ** The text token *)

Lemma split_pieces sep s :
  Forall (Forall (fun c => Ascii.eqb c sep = false)) (split sep s).
Proof.
  induction s as [|c s IH]; simpl; [repeat constructor|].
  destruct (Ascii.eqb c sep) eqn:E; [constructor; [constructor | exact IH]|].
  destruct (split sep s) as [|h t]; [repeat constructor; assumption|].
  inversion IH; subst. constructor; [constructor; assumption | assumption].
Qed.

Lemma split_nonempty sep s : split sep s <> [].
Proof.
  destruct s as [|c s]; simpl; [discriminate|].
  destruct (Ascii.eqb c sep); [discriminate|].
  destruct (split sep s); discriminate.
Qed.

Lemma split_preserves (P : ascii -> Prop) sep s :
  Forall P s -> Forall (Forall P) (split sep s).
Proof.
  induction 1 as [|c s Hc _ IH]; simpl; [repeat constructor|].
  destruct (Ascii.eqb c sep); [constructor; [constructor | exact IH]|].
  destruct (split sep s) as [|h t]; [repeat constructor; assumption|].
  inversion IH; subst. constructor; [constructor; assumption | assumption].
Qed.

Lemma dropWhile_preserves (P : ascii -> Prop) p s :
  Forall P s -> Forall P (dropWhile p s).
Proof.
  induction 1 as [|c s Hc Hs IH]; simpl; [constructor|].
  destruct (p c); [assumption | constructor; assumption].
Qed.

Lemma trim_preserves (P : ascii -> Prop) s : Forall P s -> Forall P (trim s).
Proof.
  intros H. unfold trim, trimEnd, trimStart.
  apply Forall_rev, dropWhile_preserves, Forall_rev, dropWhile_preserves.
  assumption.
Qed.

Lemma join_preserves (P : ascii -> Prop) sep ps :
  Forall P sep -> Forall (Forall P) ps -> Forall P (join sep ps).
Proof.
  intros Hsep H. induction H as [|p ps Hp _ IH]; [constructor|].
  destruct ps as [|q ps]; [exact Hp|].
  change (join sep (p :: q :: ps)) with (p ++ sep ++ join sep (q :: ps)).
  rewrite !Forall_app. auto.
Qed.

Lemma count_absent c s :
  Forall (fun d => Ascii.eqb d c = false) s -> count_occ ascii_dec s c = 0.
Proof.
  induction 1 as [|d s Hd _ IH]; simpl; [reflexivity|].
  destruct (ascii_dec d c) as [->|_]; [|exact IH].
  rewrite Ascii.eqb_refl in Hd. discriminate Hd.
Qed.

Lemma count_join c ps :
  Forall (Forall (fun d => Ascii.eqb d c = false)) ps ->
  count_occ ascii_dec (join [c] ps) c = length ps - 1.
Proof.
  induction 1 as [|p ps Hp Hps IH]; [reflexivity|].
  destruct ps as [|q ps]; [simpl; apply count_absent; assumption|].
  change (join [c] (p :: q :: ps)) with (p ++ c :: join [c] (q :: ps)).
  rewrite count_occ_app, count_absent by assumption.
  rewrite count_occ_cons_eq by reflexivity. rewrite IH. simpl. lia.
Qed.

Lemma slice0_preserves (A : Type) (P : A -> Prop) n (l : list A) :
  Forall P l -> Forall P (slice0 n l).
Proof.
  intros H. destruct (slice0_prefix n l) as [t E].
  rewrite E in H. apply Forall_app in H. tauto.
Qed.

(** X7. The text token never holds a line feed and never more than four
    spaces, whatever the hint: it is made of at most five pieces. *)
Theorem textToken_bounded (text : jsstring) :
  ~ In "010"%char (NameGenerator.textToken text)
  /\ count_occ ascii_dec (NameGenerator.textToken text) " "%char <= 4.
Proof.
  unfold NameGenerator.textToken.
  set (line := trim (hd [] (split "010"%char text))).
  split.
  - assert (H : Forall (fun c => Ascii.eqb c "010"%char = false) line).
    { apply trim_preserves.
      pose proof (split_pieces "010"%char text) as H.
      destruct (split "010"%char text); [constructor|].
      inversion H; assumption. }
    assert (J : Forall (fun c => Ascii.eqb c "010"%char = false)
                  (join (js " ") (slice0 5 (split " "%char line)))).
    { apply join_preserves; [repeat constructor|].
      apply slice0_preserves. apply split_preserves. exact H. }
    intros Hin. rewrite Forall_forall in J. apply J in Hin.
    discriminate Hin.
  - change (js " ") with [" "%char]. rewrite count_join.
    + unfold slice0. rewrite length_firstn. lia.
    + apply slice0_preserves. apply split_pieces.
Qed.

(* ================================================================== *)
(** * More about the scan *)
(* ================================================================== *)

Lemma numbered_length file es :
  forall k,
    length (Scanner.numbered file k es)
    = length (filter (fun e => Scanner.emitted (fst e)) es).
Proof.
  induction es as [|[[[nameNode attrs l]|] ch] es IH]; intros k;
    [reflexivity| |].
  - cbn [Scanner.numbered filter fst].
    destruct (Scanner.emitted (Some (JSXOpeningElement nameNode attrs l)));
      simpl; rewrite IH; reflexivity.
  - cbn [Scanner.numbered filter fst]. simpl Scanner.emitted. apply IH.
Qed.

Lemma numbered_complete file es nameNode attrs l children :
  In (Some (JSXOpeningElement nameNode attrs l), children) es ->
  Scanner.emitted (Some (JSXOpeningElement nameNode attrs l)) = true ->
  forall k0, exists k,
    nth_error (Scanner.numbered file k0 es) k
    = Some (Scanner.candidate file (Scanner.tagOf nameNode) attrs l children
              (k0 + k)).
Proof.
  intros Hin He.
  induction es as [|[[[n' a' l']|] ch'] es IH]; intros k0; [contradiction| |].
  - cbn [Scanner.numbered]. destruct Hin as [E|Hin].
    + inversion E; subst. rewrite He. exists 0. rewrite Nat.add_0_r.
      reflexivity.
    + destruct (Scanner.emitted (Some (JSXOpeningElement n' a' l'))).
      * destruct (IH Hin (S k0)) as [k Hk]. exists (S k). simpl.
        rewrite Hk. do 2 f_equal. lia.
      * apply IH. assumption.
  - cbn [Scanner.numbered]. destruct Hin as [E|Hin]; [discriminate E|].
    apply IH. assumption.
Qed.

(** X8. Every element of the tree that is taken for interactive and has no
    [data-cy] gives a suggestion, wherever it sits (below another emitted
    element, inside an attribute value); there are exactly as many
    suggestions as such elements. *)
Theorem every_emitted_element_suggested (ast : node) (code file : jsstring) :
  length (Scanner.extractSuggestionsFromAST ast code file)
  = length (filter (fun e => Scanner.emitted (fst e)) (elements ast))
  /\ (forall nameNode attrs l children,
        In (Some (JSXOpeningElement nameNode attrs l), children)
           (elements ast) ->
        Scanner.flagged (Some (JSXOpeningElement nameNode attrs l)) = true ->
        ~ Scanner.marked attrs ->
        exists k,
          nth_error (Scanner.extractSuggestionsFromAST ast code file) k
          = Some (Scanner.candidate file (Scanner.tagOf nameNode) attrs l
                    children k)).
Proof.
  rewrite extract_numbered. split; [apply numbered_length|].
  intros nameNode attrs l ch Hin Hf Hm.
  apply (@numbered_complete file (elements ast) nameNode attrs l ch Hin
           (proj2 (emitted_iff nameNode attrs l) (conj Hf Hm)) 0).
Qed.

Lemma every_emitted_element_suggested_witness :
  exists k,
    nth_error
      (Scanner.extractSuggestionsFromAST
         (Samples.el "a" [] [Samples.el "button" [] [Samples.txt "Go"]])
         [] (js "f.jsx")) k
    = Some (Scanner.candidate (js "f.jsx") (Some (js "button")) [] None
              [Samples.txt "Go"] k).
Proof.
  apply (proj2 (every_emitted_element_suggested
                  (Samples.el "a" [] [Samples.el "button" [] [Samples.txt "Go"]])
                  [] (js "f.jsx"))
           (Some (JSXIdentifier (js "button"))) [] None [Samples.txt "Go"]).
  - right. left. reflexivity.
  - reflexivity.
  - intros [v Hv]. contradiction.
Defined.

(** X9. Every suggestion of a scan carries the file name that was passed, a
    non-empty tag, a line that is absent or positive, and a [dataCy] that is
    not empty, has at most sixty characters, all of them lowercase letters,
    digits or dashes, and does not start with a dash. *)
Theorem suggestions_well_formed (ast : node) (code file : jsstring)
  (s : Scanner.suggestion) :
  In s (Scanner.extractSuggestionsFromAST ast code file) ->
  Scanner.file s = file
  /\ Scanner.tag s <> []
  /\ (Scanner.line s = None \/ exists m, Scanner.line s = Some (S m))
  /\ Scanner.dataCy s <> []
  /\ length (Scanner.dataCy s) <= 60
  /\ Forall (fun c => isLowerAlnum c = true \/ c = "-"%char) (Scanner.dataCy s)
  /\ (forall r, Scanner.dataCy s <> "-"%char :: r).
Proof.
  intros Hin. apply In_nth_error in Hin. destruct Hin as [k Hk].
  apply extracted_sources in Hk.
  destruct Hk as (nameNode & attrs & l & ch & _ & _ & ->).
  cbn [Scanner.candidate Scanner.file Scanner.tag Scanner.line Scanner.dataCy].
  repeat split.
  - unfold Scanner.tagOrEl.
    destruct (Scanner.tagOf nameNode) as [[|c t]|]; discriminate.
  - unfold Scanner.locLine. destruct l as [[|m]|]; eauto.
  - apply generateTag_nonempty.
  - apply slugify_length.
  - apply slugify_chars.
  - apply slugify_head.
Qed.

Lemma suggestions_well_formed_witness :
  length (js "button-second-button-1") <= 60.
Proof.
  apply (@suggestions_well_formed Samples.twoButtons [] (js "f.jsx")
           (Scanner.candidate (js "f.jsx") (Some (js "button")) [] None
              [Samples.txt "Second Button"] 1)).
  right. left. reflexivity.
Defined.

(** ** Tag and hint of a suggestion *)

Lemma toString_truthy v : truthy v = true -> toString v <> [].
Proof.
  destruct v as [s|n|[|]]; simpl; try discriminate.
  - destruct s; [discriminate | intros _; discriminate].
  - intros _. apply stringOfNat_nonempty.
Qed.

Lemma orElse_truthy a b :
  (exists v, b = Some v /\ truthy v = true) ->
  exists v, orElse a b = Some v /\ truthy v = true.
Proof.
  intros H. unfold orElse. destruct a as [v|]; [|exact H].
  destruct (truthy v) eqn:E; [exists v; auto | exact H].
Qed.

Lemma nameSource_nonempty c t attrs children :
  Scanner.nameSource (Some (c :: t)) attrs children <> [].
Proof.
  unfold Scanner.nameSource.
  match goal with
  | |- match ?e with _ => _ end <> [] =>
      assert (H : exists v, e = Some v /\ truthy v = true)
  end.
  { do 5 apply orElse_truthy. exists (VString (c :: t)). auto. }
  destruct H as (v & -> & Hv). apply toString_truthy. assumption.
Qed.

(** X10. The suggestion for an element named by a non-empty identifier has
    the lowercased identifier as tag and a text hint that is never empty
    (the tag is the last resort). An emitted element with any other kind of
    name (a member expression, a namespaced name) owes it to its
    [role="button"] and gets the tag "el". *)
Theorem tag_and_hint_fallback :
  (forall file c n attrs l children k,
     let s := Scanner.candidate file
                (Scanner.tagOf (Some (JSXIdentifier (c :: n)))) attrs l
                children k in
     Scanner.tag s = toLowerCase (c :: n) /\ Scanner.text s <> [])
  /\ (forall file nameNode attrs l children k,
        (forall n, nameNode <> Some (JSXIdentifier n)) ->
        Scanner.emitted (Some (JSXOpeningElement nameNode attrs l)) = true ->
        Scanner.interactiveByRole attrs
        /\ Scanner.tag (Scanner.candidate file (Scanner.tagOf nameNode) attrs
                          l children k) = js "el").
Proof.
  split.
  - intros file c n attrs l ch k s. subst s. simpl. split; [reflexivity|].
    apply nameSource_nonempty.
  - intros file nameNode attrs l ch k Hn He.
    apply emitted_iff in He. destruct He as [Hf _].
    apply flagged_iff in Hf. destruct Hf as [_ [[n [E _]]|Hr]].
    + exfalso. exact (Hn n E).
    + split; [assumption|].
      destruct nameNode as [[n| |]|]; try reflexivity.
      exfalso. exact (Hn n eq_refl).
Qed.

Lemma tag_and_hint_fallback_witness :
  Scanner.tag
    (Scanner.candidate (js "f.jsx")
       (Scanner.tagOf (Some (JSXMemberExpression (js "Box"))))
       [Samples.attr "role" "button"] None [] 0)
  = js "el".
Proof.
  apply (proj2 tag_and_hint_fallback (js "f.jsx")
           (Some (JSXMemberExpression (js "Box")))
           [Samples.attr "role" "button"] None [] 0).
  - intros n. discriminate.
  - reflexivity.
Defined.

(** ** The label attributes *)

Lemma attrVal_truthy a v : Scanner.attrVal a = Some v -> truthy v = true.
Proof.
  unfold Scanner.attrVal, orElse.
  destruct (attrValueValue a) as [x|].
  - destruct (truthy x) eqn:E; [intros H; inversion H; subst; exact E|].
    destruct (attrExpressionValue a) as [y|]; [|discriminate].
    destruct (truthy y) eqn:E'; [|discriminate].
    intros H; inversion H; subst; exact E'.
  - destruct (attrExpressionValue a) as [y|]; [|discriminate].
    destruct (truthy y) eqn:E'; [|discriminate].
    intros H; inversion H; subst; exact E'.
Qed.

Lemma attrHints_snoc attrs a :
  Scanner.attrHints (attrs ++ [a])
  = Scanner.hintStep (Scanner.attrHints attrs) a.
Proof. unfold Scanner.attrHints. rewrite fold_left_app. reflexivity. Qed.

Lemma lastNamed_snoc key attrs a :
  Scanner.lastNamed key (attrs ++ [a])
  = if attrNamed key a then Some a else Scanner.lastNamed key attrs.
Proof.
  unfold Scanner.lastNamed. rewrite rev_app_distr. reflexivity.
Qed.

Lemma hintStep_fields h a :
  Scanner.aria (Scanner.hintStep h a)
  = (if attrNamed (js "aria-label") a then Scanner.attrVal a
     else Scanner.aria h)
  /\ Scanner.placeholder (Scanner.hintStep h a)
     = (if attrNamed (js "placeholder") a then Scanner.attrVal a
        else Scanner.placeholder h)
  /\ Scanner.alt (Scanner.hintStep h a)
     = (if attrNamed (js "alt") a then Scanner.attrVal a
        else Scanner.alt h)
  /\ Scanner.title (Scanner.hintStep h a)
     = (if attrNamed (js "title") a then Scanner.attrVal a
        else Scanner.title h).
Proof.
  destruct a as [nm v|e]; [|repeat split; reflexivity].
  unfold Scanner.hintStep.
  destruct (attrNamed (js "aria-label") (JSXAttribute nm v));
  destruct (attrNamed (js "placeholder") (JSXAttribute nm v));
  destruct (attrNamed (js "alt") (JSXAttribute nm v));
  destruct (attrNamed (js "title") (JSXAttribute nm v));
  repeat split; reflexivity.
Qed.

(** The value read from the last attribute named [key]. *)
Lemma attrHints_last attrs :
  let from key := match Scanner.lastNamed key attrs with
                  | Some a => Scanner.attrVal a
                  | None => None
                  end in
  Scanner.aria (Scanner.attrHints attrs) = from (js "aria-label")
  /\ Scanner.placeholder (Scanner.attrHints attrs) = from (js "placeholder")
  /\ Scanner.alt (Scanner.attrHints attrs) = from (js "alt")
  /\ Scanner.title (Scanner.attrHints attrs) = from (js "title").
Proof.
  induction attrs as [|a attrs IH] using rev_ind; [repeat split; reflexivity|].
  cbv zeta in *. rewrite attrHints_snoc, !lastNamed_snoc.
  destruct IH as (I1 & I2 & I3 & I4).
  destruct (hintStep_fields (Scanner.attrHints attrs) a)
    as (H1 & H2 & H3 & H4).
  rewrite H1, H2, H3, H4, I1, I2, I3, I4.
  repeat split;
    match goal with
    | |- context [attrNamed ?k a] => destruct (attrNamed k a); reflexivity
    end.
Qed.

(** X11. Each of the hints aria-label, placeholder, alt and title is the
    value read from the last attribute of that name in the whole attribute
    list, whatever attributes come before, between or after; it is absent
    when there is no such attribute or when the last one has no static
    value, even if an earlier attribute of the same name had one; and a
    value that is read is never an empty string, zero or false. *)
Theorem last_label_attribute_wins (attrs : list attribute) :
  Scanner.aria (Scanner.attrHints attrs)
  = match Scanner.lastNamed (js "aria-label") attrs with
    | Some a => Scanner.attrVal a
    | None => None
    end
  /\ Scanner.placeholder (Scanner.attrHints attrs)
     = match Scanner.lastNamed (js "placeholder") attrs with
       | Some a => Scanner.attrVal a
       | None => None
       end
  /\ Scanner.alt (Scanner.attrHints attrs)
     = match Scanner.lastNamed (js "alt") attrs with
       | Some a => Scanner.attrVal a
       | None => None
       end
  /\ Scanner.title (Scanner.attrHints attrs)
     = match Scanner.lastNamed (js "title") attrs with
       | Some a => Scanner.attrVal a
       | None => None
       end
  /\ (forall key a, Scanner.lastNamed key attrs = Some a ->
                    In a attrs /\ attrName a = Some key
                    /\ exists before after,
                         attrs = before ++ a :: after
                         /\ Forall (fun b => attrName b <> Some key) after)
  /\ (forall a x, Scanner.attrVal a = Some x -> truthy x = true).
Proof.
  destruct (attrHints_last attrs) as (H1 & H2 & H3 & H4).
  repeat split; try assumption; try (eapply attrVal_truthy; eassumption).
  - unfold Scanner.lastNamed in H. apply find_some in H.
    apply in_rev. tauto.
  - unfold Scanner.lastNamed in H. apply find_some in H.
    destruct H as [_ H]. unfold attrNamed in H.
    destruct (attrName a) as [n|]; [|discriminate].
    apply eqb_eq in H. subst. reflexivity.
  - revert a H. induction attrs as [|b attrs IH] using rev_ind;
      intros a H; [discriminate H|].
    rewrite lastNamed_snoc in H.
    destruct (attrNamed key b) eqn:E.
    + inversion H; subst. exists attrs, []. split; [reflexivity|constructor].
    + destruct (attrHints_last attrs) as (J1 & J2 & J3 & J4).
      destruct (IH J1 J2 J3 J4 a H) as (before & after & -> & Hafter).
      exists before, (after ++ [b]). split.
      * rewrite <- app_assoc. reflexivity.
      * apply Forall_app. split; [assumption|]. constructor; [|constructor].
        intros Hb. unfold attrNamed in E. rewrite Hb in E.
        rewrite eqb_refl in E. discriminate E.
Qed.

Lemma last_label_attribute_wins_witness :
  Scanner.attrVal (Samples.attr "aria-label" "Email")
  = Some (VString (js "Email"))
  /\ truthy (VString (js "Email")) = true.
Proof.
  split; [reflexivity|].
  apply (proj2 (proj2 (proj2 (proj2 (proj2
           (last_label_attribute_wins
              [Samples.attr "aria-label" "Email";
               Samples.attr "placeholder" "you@example.org"])))))
           (Samples.attr "aria-label" "Email")).
  reflexivity.
Defined.

(* ================================================================== *)
(** * The loop of [run] and its glue *)
(* ================================================================== *)

Lemma collect_app a b :
  Scanner.collect (a ++ b) = Scanner.collect a ++ Scanner.collect b.
Proof. rewrite !collect_flat_map. apply flat_map_app. Qed.

(** X12. A changed file that is missing on disk or fails to parse adds
    nothing and leaves the suggestions of the files before and after it as
    they are; the suggestions of a run are those of its files, one file
    after the other. *)
Theorem unreadable_files_are_skipped (before after : list Scanner.changed) :
  (forall file,
     Scanner.collect (before ++ Scanner.Missing file :: after)
     = Scanner.collect (before ++ after))
  /\ (forall file code,
        Scanner.collect (before ++ Scanner.ParseFailed file code :: after)
        = Scanner.collect (before ++ after))
  /\ (forall file code ast,
        Scanner.collect (before ++ Scanner.Parsed file code ast :: after)
        = Scanner.collect before
          ++ Scanner.extractSuggestionsFromAST ast code file
          ++ Scanner.collect after).
Proof.
  repeat split; intros; rewrite !collect_flat_map, !flat_map_app; simpl;
    rewrite ?collect_flat_map; reflexivity.
Qed.

(** X13. Every suggestion a run collects comes from the scan of a changed
    file that was parsed, and carries the name of that file. *)
Theorem collected_from_parsed_files (relevant : list Scanner.changed)
  (s : Scanner.suggestion) :
  In s (Scanner.collect relevant) ->
  exists code ast,
    In (Scanner.Parsed (Scanner.file s) code ast) relevant
    /\ In s (Scanner.extractSuggestionsFromAST ast code (Scanner.file s)).
Proof.
  rewrite collect_flat_map. intros H. apply in_flat_map in H.
  destruct H as ([f|f c|f c ast] & Hin & Hs); simpl in Hs; try contradiction.
  assert (E : Scanner.file s = f).
  { apply In_nth_error in Hs. destruct Hs as [k Hk].
    apply extracted_sources in Hk.
    destruct Hk as (n & a & l & ch & _ & _ & ->). reflexivity. }
  rewrite E. exists c, ast. auto.
Qed.

Lemma collected_from_parsed_files_witness :
  exists code ast,
    In (Scanner.Parsed (js "b.jsx") code ast)
       [Scanner.Missing (js "a.jsx");
        Scanner.Parsed (js "b.jsx") [] Samples.saveButton]
    /\ In (Scanner.candidate (js "b.jsx") (Some (js "button")) [] None
             [Samples.txt "Save"] 0)
          (Scanner.extractSuggestionsFromAST ast code (js "b.jsx")).
Proof.
  apply (@collected_from_parsed_files
           [Scanner.Missing (js "a.jsx");
            Scanner.Parsed (js "b.jsx") [] Samples.saveButton]
           (Scanner.candidate (js "b.jsx") (Some (js "button")) [] None
              [Samples.txt "Save"] 0)).
  left. reflexivity.
Defined.

(** ** The file name filter *)

Lemma lower_is_dot c : toLowerCaseChar c = "."%char -> c = "."%char.
Proof. each_char c; vm_compute; intros H; congruence. Qed.

Lemma matchesToEnd_iff pattern s :
  Run.matchesToEnd pattern s = true <-> toLowerCase s = pattern.
Proof.
  revert s; induction pattern as [|p pattern IH]; intros [|c s]; simpl;
    try (split; [discriminate | discriminate]); try (split; reflexivity).
  rewrite andb_true_iff, Ascii.eqb_eq, IH.
  split; [intros [-> ->]; reflexivity | intros H; inversion H; auto].
Qed.

Lemma matches_extension_iff f :
  existsb (fun e => Run.matchesToEnd ("."%char :: e) f) Run.extensions = true
  <-> exists ext, f = "."%char :: ext /\ In (toLowerCase ext) Run.extensions.
Proof.
  rewrite existsb_exists. split.
  - intros (e & He & Hm). apply matchesToEnd_iff in Hm.
    destruct f as [|c ext]; [discriminate Hm|].
    simpl in Hm. inversion Hm as [[Hc Hx]].
    apply lower_is_dot in Hc. subst c.
    exists ext. split; [reflexivity|]. rewrite Hx. assumption.
  - intros (ext & -> & Hin). exists (toLowerCase ext).
    split; [assumption|]. apply matchesToEnd_iff. reflexivity.
Qed.

(** X14. A changed file is scanned exactly when its name ends in a dot
    followed by jsx, js, tsx, ts or html, in any letter case; the stem may
    be empty. *)
Theorem relevant_iff_extension (f : jsstring) :
  Run.isRelevant f = true
  <-> exists stem ext,
        f = stem ++ "."%char :: ext /\ In (toLowerCase ext) Run.extensions.
Proof.
  split.
  - induction f as [|c f IH]; intros H.
    + discriminate H.
    + cbn [Run.isRelevant] in H. apply orb_true_iff in H.
      destruct H as [H|H].
      * apply matches_extension_iff in H. destruct H as (ext & E & Hin).
        exists [], ext. auto.
      * destruct (IH H) as (stem & ext & -> & Hin).
        exists (c :: stem), ext. auto.
  - intros (stem & ext & -> & Hin).
    induction stem as [|c stem IH].
    + simpl app.
      assert (M : existsb (fun e => Run.matchesToEnd ("."%char :: e)
                                      ("."%char :: ext)) Run.extensions
                  = true)
        by (apply matches_extension_iff; exists ext; auto).
      cbn [Run.isRelevant]. rewrite M. reflexivity.
    + simpl app. cbn [Run.isRelevant]. rewrite IH. apply orb_true_r.
Qed.

Lemma relevant_iff_extension_witness :
  Run.isRelevant (js "src/App.TSX") = true.
Proof.
  apply (proj2 (relevant_iff_extension (js "src/App.TSX"))).
  exists (js "src/App"), (js "TSX"). split; [reflexivity|].
  right. right. left. reflexivity.
Defined.

(** ** The text of a table cell *)

Lemma blankOut_absent c s : c <> " "%char -> ~ In c (blankOut c s).
Proof.
  intros Hc Hin. unfold blankOut in Hin. apply in_map_iff in Hin.
  destruct Hin as (d & E & _).
  destruct (Ascii.eqb d c) eqn:K; [congruence|].
  subst. rewrite Ascii.eqb_refl in K. discriminate K.
Qed.

Lemma blankOut_keeps_absent c e s : e <> " "%char -> ~ In e s -> ~ In e (blankOut c s).
Proof.
  intros He Hs Hin. unfold blankOut in Hin. apply in_map_iff in Hin.
  destruct Hin as (d & E & Hd).
  destruct (Ascii.eqb d c); [congruence|]. subst. contradiction.
Qed.

Lemma blankOut_fixed c s : ~ In c s -> blankOut c s = s.
Proof.
  unfold blankOut. induction s as [|d s IH]; intros H; [reflexivity|].
  simpl. destruct (Ascii.eqb d c) eqn:K.
  - apply Ascii.eqb_eq in K. subst. exfalso. apply H. left; reflexivity.
  - f_equal. apply IH. intros Hin. apply H. right; assumption.
Qed.

Lemma slice0_in (A : Type) n (l : list A) x : In x (slice0 n l) -> In x l.
Proof.
  destruct (slice0_prefix n l) as [t E]. intros H.
  rewrite E. apply in_or_app. left; assumption.
Qed.

(** X15. The text put into a table cell never holds a vertical bar or a
    line feed and has at most a hundred characters: it is the first hundred
    characters of the hint, and the hint itself when that is short and free
    of both. *)
Theorem safeText_is_safe (text : jsstring) :
  ~ In "|"%char (Run.safeText text)
  /\ ~ In "010"%char (Run.safeText text)
  /\ length (Run.safeText text) = Nat.min 100 (length text)
  /\ (~ In "|"%char text -> ~ In "010"%char text -> length text <= 100 ->
      Run.safeText text = text).
Proof.
  unfold Run.safeText. repeat split.
  - intros H. apply slice0_in in H.
    revert H. apply blankOut_keeps_absent; [discriminate|].
    apply blankOut_absent. discriminate.
  - intros H. apply slice0_in in H.
    revert H. apply blankOut_absent. discriminate.
  - unfold slice0, blankOut. rewrite length_firstn, !length_map. reflexivity.
  - intros H1 H2 H3. rewrite (blankOut_fixed _ _ H1), (blankOut_fixed _ _ H2).
    unfold slice0. apply firstn_all2. assumption.
Qed.

Lemma safeText_is_safe_witness :
  Run.safeText (js "Submit Form") = js "Submit Form".
Proof.
  apply (proj2 (proj2 (proj2 (safeText_is_safe (js "Submit Form"))))).
  - intros H. repeat (destruct H as [H|H]; [discriminate H|]). contradiction.
  - intros H. repeat (destruct H as [H|H]; [discriminate H|]). contradiction.
  - vm_compute. lia.
Defined.

(* ================================================================== *)
(** * The two texts of the visitor *)
(* ================================================================== *)

Section SameMethod.
Variable State : Type.
Variables m1 m2 : option opening -> list node -> State -> State.

Let agree (es : list (option opening * list node)) : Prop :=
  forall o children s, In (o, children) es -> m1 o children s = m2 o children s.

Lemma visitAll_same l :
  Forall (fun n => agree (elements n) ->
                   forall s, visit m1 n s = visit m2 n s) l ->
  agree (flat_map elements l) ->
  forall s, visitAll m1 l s = visitAll m2 l s.
Proof.
  unfold visitAll.
  induction 1 as [|c r Hc _ IH]; intros Ha s; simpl; [reflexivity|].
  rewrite Hc.
  - apply IH. intros o ch t Hin. apply Ha. simpl. apply in_or_app. auto.
  - intros o ch t Hin. apply Ha. simpl. apply in_or_app. auto.
Qed.

Lemma visitAttrs_same l :
  Forall (fun a => agree (attributeElements a) ->
                   forall s, visitAttribute m1 a s = visitAttribute m2 a s) l ->
  agree (flat_map attributeElements l) ->
  forall s, visitAttrs m1 l s = visitAttrs m2 l s.
Proof.
  unfold visitAttrs.
  induction 1 as [|c r Hc _ IH]; intros Ha s; simpl; [reflexivity|].
  rewrite Hc.
  - apply IH. intros o ch t Hin. apply Ha. simpl. apply in_or_app. auto.
  - intros o ch t Hin. apply Ha. simpl. apply in_or_app. auto.
Qed.

(** Two visitor methods that do the same on every element of a tree give
    the same traversal of it. *)
Lemma visit_same n :
  agree (elements n) -> forall s, visit m1 n s = visit m2 n s.
Proof.
  induction n using node_induction with
    (Q := fun op => agree (openingElements op) ->
                    forall s, visitOpening m1 op s = visitOpening m2 op s)
    (R := fun a => agree (attributeElements a) ->
                   forall s, visitAttribute m1 a s = visitAttribute m2 a s);
    intros Ha s; try reflexivity.
  - rewrite !visit_element. unfold traverse.
    rewrite elements_element in Ha.
    rewrite (Ha None children s (or_introl eq_refl)).
    apply visitAll_same; [assumption|].
    intros o ch t Hin. apply Ha. right. exact Hin.
  - rewrite !visit_element. unfold traverse.
    rewrite elements_element in Ha. destruct op as [nameNode attrs l].
    rewrite (Ha _ children s (or_introl eq_refl)).
    rewrite <- !(visitOpening_attrs _ nameNode attrs l).
    rewrite IHn.
    + apply visitAll_same; [assumption|].
      intros o ch t Hin. apply Ha. right. apply in_or_app. auto.
    + intros o ch t Hin. apply Ha. right. apply in_or_app. left.
      exact Hin.
  - rewrite !visit_container. apply IHn. exact Ha.
  - rewrite !visit_other. apply visitAll_same; assumption.
  - rewrite !visitOpening_attrs. apply visitAttrs_same; assumption.
  - simpl. apply IHn. exact Ha.
  - simpl. apply IHn. exact Ha.
Qed.

End SameMethod.

Lemma hintStep_same h a :
  (ScannerCopy.isLabel a = true ->
   exists v, attrValueValue a = Some v /\ truthy v = true) ->
  ScannerCopy.hintStep h a = Scanner.hintStep h a.
Proof.
  intros H. destruct a as [nm v|e]; [|reflexivity].
  unfold ScannerCopy.hintStep, Scanner.hintStep.
  unfold ScannerCopy.isLabel in H.
  destruct (attrNamed (js "aria-label") (JSXAttribute nm v)) eqn:E1;
  destruct (attrNamed (js "placeholder") (JSXAttribute nm v)) eqn:E2;
  destruct (attrNamed (js "alt") (JSXAttribute nm v)) eqn:E3;
  destruct (attrNamed (js "title") (JSXAttribute nm v)) eqn:E4;
  try reflexivity;
  destruct (H eq_refl) as (x & Hx & Tx);
  unfold ScannerCopy.setIf, Scanner.attrVal, orElse;
  rewrite Hx, Tx; reflexivity.
Qed.

Lemma hints_same attrs :
  Forall (fun a => ScannerCopy.isLabel a = true ->
                   exists v, attrValueValue a = Some v /\ truthy v = true)
         attrs ->
  forall h, fold_left ScannerCopy.hintStep attrs h
            = fold_left Scanner.hintStep attrs h.
Proof.
  induction 1 as [|a r Ha _ IH]; intros h; simpl; [reflexivity|].
  rewrite hintStep_same by assumption. apply IH.
Qed.

Lemma visitJSXElement_same file o children s :
  ScannerCopy.plain o ->
  ScannerCopy.visitJSXElement file o children s
  = Scanner.visitJSXElement file o children s.
Proof.
  destruct o as [[nameNode attrs l]|]; [|reflexivity].
  intros (Hc & Hm & Hl & Ha). simpl. rewrite Hc.
  assert (T : ScannerCopy.tagOf nameNode = Scanner.tagOf nameNode).
  { destruct nameNode as [[n|p|ns n]|]; try reflexivity.
    exfalso. exact (Hm p eq_refl). }
  rewrite T.
  destruct (negb _); [reflexivity|].
  destruct (Scanner.hasDataCy attrs); [reflexivity|].
  do 2 f_equal.
  unfold ScannerCopy.candidate, Scanner.candidate.
  assert (N : ScannerCopy.nameSource (Scanner.tagOf nameNode) attrs children
              = Scanner.nameSource (Scanner.tagOf nameNode) attrs children).
  { unfold ScannerCopy.nameSource, Scanner.nameSource, Scanner.attrHints.
    rewrite hints_same by assumption. reflexivity. }
  rewrite N. f_equal.
  destruct l as [[|m]|]; try reflexivity. contradiction.
Qed.

(** X16. On a tree whose elements are all plain (no component reference,
    no member-expression name, label attributes given as truthy literals,
    line numbers from 1) the second text of the visitor gives the same
    suggestions as the first. *)
Theorem copies_agree_on_plain_markup (ast : node) (code file : jsstring) :
  (forall o children, In (o, children) (elements ast) -> ScannerCopy.plain o) ->
  ScannerCopy.extractSuggestionsFromAST ast code file
  = Scanner.extractSuggestionsFromAST ast code file.
Proof.
  intros H.
  unfold ScannerCopy.extractSuggestionsFromAST,
    Scanner.extractSuggestionsFromAST.
  apply visit_same. intros o ch s Hin.
  apply visitJSXElement_same. exact (H o ch Hin).
Qed.

Lemma copies_agree_on_plain_markup_witness :
  ScannerCopy.extractSuggestionsFromAST Samples.twoButtons [] (js "f.jsx")
  = Scanner.extractSuggestionsFromAST Samples.twoButtons [] (js "f.jsx").
Proof.
  apply (@copies_agree_on_plain_markup Samples.twoButtons [] (js "f.jsx")).
  intros o ch Hin. simpl in Hin.
  repeat (destruct Hin as [Hin|Hin];
          [inversion Hin; subst; clear Hin;
           repeat split; try discriminate; constructor|]).
  contradiction.
Defined.

(* ================================================================== *)
(** * Order and composition of a scan *)
(* ================================================================== *)

Lemma numbered_described file es :
  forall k,
    map Scanner.described (Scanner.numbered file k es)
    = map Scanner.described (Scanner.numbered file 0 es).
Proof.
  induction es as [|[[[nameNode attrs l]|] ch] es IH]; intros k;
    [reflexivity| |].
  - cbn [Scanner.numbered].
    destruct (Scanner.emitted (Some (JSXOpeningElement nameNode attrs l))).
    + simpl. rewrite (IH (S k)), (IH 1). reflexivity.
    + apply IH.
  - cbn [Scanner.numbered]. apply IH.
Qed.

(** X17. Suggestions come in traversal order, parents first: an emitted
    element heads the suggestions of its own subtree with ordinal 0. The
    ordinal is all that siblings share: apart from [dataCy], scanning a
    sequence of nodes gives what scanning its two halves gives, one after
    the other. *)
Theorem scan_order_and_composition (code file : jsstring) :
  (forall nameNode attrs l children,
     Scanner.emitted (Some (JSXOpeningElement nameNode attrs l)) = true ->
     nth_error
       (Scanner.extractSuggestionsFromAST
          (JSXElement (Some (JSXOpeningElement nameNode attrs l)) children)
          code file) 0
     = Some (Scanner.candidate file (Scanner.tagOf nameNode) attrs l
               children 0))
  /\ (forall first second,
        map Scanner.described
          (Scanner.extractSuggestionsFromAST (Other (first ++ second))
             code file)
        = map Scanner.described
            (Scanner.extractSuggestionsFromAST (Other first) code file)
          ++ map Scanner.described
               (Scanner.extractSuggestionsFromAST (Other second) code file)).
Proof.
  split.
  - intros nameNode attrs l ch He.
    rewrite extract_numbered, elements_element.
    cbn [Scanner.numbered]. rewrite He. reflexivity.
  - intros first second.
    rewrite !extract_numbered, !elements_other, flat_map_app.
    rewrite numbered_app, map_app. f_equal.
    apply numbered_described.
Qed.

Lemma scan_order_and_composition_witness :
  nth_error
    (Scanner.extractSuggestionsFromAST
       (JSXElement
          (Some (JSXOpeningElement (Some (JSXIdentifier (js "a"))) [] None))
          [Samples.el "button" [] [Samples.txt "Go"]]) [] (js "f.jsx")) 0
  = Some (Scanner.candidate (js "f.jsx")
            (Scanner.tagOf (Some (JSXIdentifier (js "a")))) [] None
            [Samples.el "button" [] [Samples.txt "Go"]] 0).
Proof.
  apply (proj1 (scan_order_and_composition [] (js "f.jsx"))
           (Some (JSXIdentifier (js "a"))) [] None
           [Samples.el "button" [] [Samples.txt "Go"]]).
  reflexivity.
Defined.

(** ** Spread attributes *)

Lemma existsb_named p attrs :
  (forall e, p (JSXSpreadAttribute e) = false) ->
  existsb p (Scanner.named attrs) = existsb p attrs.
Proof.
  intros H. induction attrs as [|a r IH]; [reflexivity|].
  destruct a as [nm v|e]; simpl; [rewrite IH; reflexivity|].
  rewrite H. exact IH.
Qed.

Lemma hints_named attrs :
  forall h, fold_left Scanner.hintStep (Scanner.named attrs) h
            = fold_left Scanner.hintStep attrs h.
Proof.
  induction attrs as [|a r IH]; intros h; [reflexivity|].
  destruct a as [nm v|e]; simpl; apply IH.
Qed.

(** X18. Spread attributes are opaque to the handling of an element: what
    the visitor does with the element itself is what it does with the spread
    attributes left out. A [data-cy], [role] or label passed through a
    spread is therefore not seen. *)
Theorem spread_attributes_ignored (file : jsstring)
  (nameNode : option jsxName) (attrs : list attribute) (l : option nat)
  (children : list node) (s : list Scanner.suggestion) :
  Scanner.visitJSXElement file
    (Some (JSXOpeningElement nameNode (Scanner.named attrs) l)) children s
  = Scanner.visitJSXElement file
      (Some (JSXOpeningElement nameNode attrs l)) children s.
Proof.
  assert (R : Scanner.hasRoleButton (Scanner.named attrs)
              = Scanner.hasRoleButton attrs)
    by (apply existsb_named; reflexivity).
  assert (D : Scanner.hasDataCy (Scanner.named attrs)
              = Scanner.hasDataCy attrs)
    by (apply existsb_named; reflexivity).
  assert (N : forall tag,
             Scanner.nameSource tag (Scanner.named attrs) children
             = Scanner.nameSource tag attrs children).
  { intros tag. unfold Scanner.nameSource, Scanner.attrHints.
    rewrite hints_named. reflexivity. }
  simpl. unfold Scanner.isInteractive, Scanner.candidate.
  rewrite R, D, N. reflexivity.
Qed.
